(** * Turn rotation and player lifecycle of the match backend

    A shallow embedding of [app/routers/players.py] (the leave, end-turn and
    winner workflows) and of the validators of [app/models/models.py],
    together with the storage and connection-manager collaborators those
    workflows call.  Python exceptions are carried by an error/state monad
    over a [World] made of the SQLAlchemy session, the process-wide
    connection manager and the trace of externally observable calls. *)

From stdpp Require Import base numbers option list gmap strings pretty
  sorting.

Open Scope Z_scope.

(** ** Exceptions *)

Inductive exn : Type :=
| HTTPException (status_code : Z) (detail : string)
| ValueError
| NoResultFound
| IndexError
| RuntimeError
| AttributeError
| OverflowError
| ObjectDeletedError
| GameConnectionDoesNotExist (game_id : Z)
| PlayerNotConnected (game_id player_id : Z)
| PlayerAlreadyConnected (game_id player_id : Z)
| SessionAlreadyOpen (game_id : Z).

Inductive outcome (A : Type) : Type :=
| Raise (e : exn)
| Return (a : A).
Arguments Raise {A} e.
Arguments Return {A} a.

(** ** Data model ([app/models/enums.py], [app/models/models.py]) *)

Inductive MatchState : Type := WAITING | STARTED | FINISHED.

#[global] Instance MatchState_eq_dec : EqDecision MatchState.
Proof. solve_decision. Defined.

(** Modelled from the spec: the [ReasonWinning] enumeration imported by
    [players.py] is not declared in [enums.py]; the spec describes it as a
    fixed winning-reason vocabulary that includes forfeit.  [NORMAL] stands
    for the rest of that vocabulary. *)
Inductive ReasonWinning : Type := NORMAL | FORFEIT.

(** A row of the [matches] table with the columns that class [Matches]
    declares; the primary key is the key of the table map. *)
Module Matches.
Record t : Type := mk {
  match_name : string;
  state : MatchState;
  is_public : bool;
  current_players : Z;
  max_players : Z
}.
End Matches.

(** A row of the [players] table; [turn_order] and [match_id] are nullable. *)
Module Players.
Record t : Type := mk {
  id : Z;
  player_name : string;
  is_owner : bool;
  session_token : string;
  turn_order : option Z;
  match_id : option Z
}.
End Players.

(** The SQLAlchemy session: the [matches] table keyed by primary key and
    the [players] table as its rows in storage order (the order in which
    an unordered query returns them). *)
Record Session : Type := mkSession {
  matches : gmap Z Matches.t;
  players : list Players.t
}.

(** ** Connection manager and observable trace *)

Inductive Message : Type :=
| PLAYER_LEFT (name : string)
| WINNER (player_id : Z) (Reason : ReasonWinning)
| END_PLAYER_TURN (current_player_name next_player_name : string)
                  (next_player_turn : option Z).

Inductive Event : Type :=
| EvBroadcast (game_id : Z) (msg : Message) (delivered : list Z)
| EvGiveMovementCard (player_id : Z)
| EvNotifyMovementCard (player_id : Z)
| EvNotifyAllMovementsReceived (player_id game_id : Z)
| EvGiveShapeCard (player_id : Z) (is_init : bool).

(** Websockets are handles; [_games] maps a match to the sockets of its
    connected players, [_connections] holds the anonymous sockets. *)
Record ConnectionManager : Type := mkManager {
  _games : gmap Z (gmap Z Z);
  _connections : list Z
}.

Record World : Type := mkWorld {
  db : Session;
  manager : ConnectionManager;
  closed : gset Z;
  trace : list Event
}.

Definition set_db (s : Session) (w : World) : World :=
  mkWorld s (manager w) (closed w) (trace w).
Definition set_manager (c : ConnectionManager) (w : World) : World :=
  mkWorld (db w) c (closed w) (trace w).
Definition log (e : Event) (w : World) : World :=
  mkWorld (db w) (manager w) (closed w) (trace w ++ [e]).

(** ** The monad of handlers: state that survives a raised exception *)

Definition M (A : Type) : Type := World → outcome A * World.

#[global] Instance M_ret : MRet M := λ A a w, (Return a, w).
#[global] Instance M_bind : MBind M := λ A B k m w,
  match m w with
  | (Return a, w') => k a w'
  | (Raise e, w') => (Raise e, w')
  end.

Definition raise {A} (e : exn) : M A := λ w, (Raise e, w).
Definition gets {A} (f : World → A) : M A := λ w, (Return (f w), w).
Definition modify (f : World → World) : M unit := λ w, (Return tt, f w).

(** [try: m except h]: the handler [h] selects the exceptions it catches. *)
Definition try_except {A} (m : M A) (h : exn → option (M A)) : M A := λ w,
  match m w with
  | (Return a, w') => (Return a, w')
  | (Raise e, w') =>
      match h e with
      | Some k => k w'
      | None => (Raise e, w')
      end
  end.

Definition when_ (b : bool) (m : M unit) : M unit :=
  if b then m else mret tt.

(** ** Record storage ([PlayerService], [MatchService])

    The services of one request share one session, and the handlers take
    and return the mapped objects ([match: Matches]).  [app/database.py]
    builds the session with [sessionmaker(autocommit=False,
    autoflush=False)], so [expire_on_commit] keeps its default and after
    every commit the attributes of a loaded object are read again from the
    store.  A loaded match is therefore a reference into the store
    ([MatchRef]), and [getattr] reads the row as it is when the attribute is
    evaluated.  A loaded player is only read for attributes that nothing
    writes between the load and the read, and is represented by its row. *)

Definition MatchRef : Type := Z.

Definition getattr {A} (f : Matches.t → A) (ref : MatchRef) : M A := λ w,
  match matches (db w) !! ref with
  | Some m => (Return (f m), w)
  | None => (Raise ObjectDeletedError, w)
  end.

(** [match.current_player_turn]: class [Matches] declares the columns [id],
    [match_name], [state], [is_public], [current_players], [max_players]
    and the relationships [players] and [board], and nothing of that name,
    so reading the attribute of a loaded match raises [AttributeError]. *)
Definition getattr_current_player_turn (ref : MatchRef) : M Z :=
  raise AttributeError.

(** Row-level updates of the two tables. *)
Definition without_player (player_id : Z) (s : Session) : Session :=
  mkSession (matches s) (filter (λ p, Players.id p ≠ player_id) (players s)).

Definition with_match (id : Z) (m : Matches.t) (s : Session) : Session :=
  mkSession (<[id := m]> (matches s)) (players s).

(** Modelled from the spec: [MatchService.get_match_by_id] ([findMatch],
    file [app/cruds/match.py] is absent); fails with the not-found condition
    that [leave_player] catches as [NoResultFound]. *)
Definition get_match_by_id (id : Z) : M MatchRef := λ w,
  match matches (db w) !! id with
  | Some _ => (Return id, w)
  | None => (Raise NoResultFound, w)
  end.

(** Modelled from the spec: [MatchService.update_match] ([updateMatch(id,
    state, currentPlayers)]), absent from the sources. *)
Definition update_match (id : Z) (new_state : MatchState) (new_amount : Z)
  : M unit := λ w,
  match matches (db w) !! id with
  | Some m =>
      let m' := Matches.mk (Matches.match_name m) new_state
                           (Matches.is_public m) new_amount
                           (Matches.max_players m) in
      (Return tt, set_db (with_match id m' (db w)) w)
  | None => (Raise NoResultFound, w)
  end.

(** Modelled from the spec: [MatchService.update_turn] ([updateTurn(id,
    turn)]), absent from the sources: it fails when the match is not found;
    the [matches] table has no column that holds a turn, so the store is
    left as it is. *)
Definition update_turn (id : Z) (turn : Z) : M unit := λ w,
  match matches (db w) !! id with
  | Some _ => (Return tt, w)
  | None => (Raise NoResultFound, w)
  end.

(** [db.query(Players).filter(Players.id == player_id)], first row. *)
Definition query_player (player_id : Z) (s : Session) : option Players.t :=
  head (filter (λ p, Players.id p = player_id) (players s)).

(** [db.query(Players).filter(Players.match_id == id).all()]. *)
Definition query_players_of (id : Z) (s : Session) : list Players.t :=
  filter (λ p, Players.match_id p = Some id) (players s).

(** [db.query(Players).filter(Players.turn_order == turn,
    Players.match_id == id)], first row. *)
Definition query_seat (turn id : Z) (s : Session) : option Players.t :=
  head (filter (λ p, Players.turn_order p = Some turn
                     ∧ Players.match_id p = Some id) (players s)).

(** Modelled from the spec: [PlayerService.get_player_by_id] ([findPlayer],
    file [app/cruds/player.py] is absent); its not-found condition is the
    [ValueError] that [leave_player] catches. *)
Definition get_player_by_id (player_id : Z) : M Players.t := λ w,
  match query_player player_id (db w) with
  | Some p => (Return p, w)
  | None => (Raise ValueError, w)
  end.

(** Modelled from the spec: [PlayerService.get_players_by_match]
    ([listPlayersByMatch]), absent from the sources. *)
Definition get_players_by_match (id : Z) : M (list Players.t) :=
  gets (λ w, query_players_of id (db w)).

(** Modelled from the spec: [PlayerService.get_player_by_turn], absent from
    the sources: the player of the match seated at [turn_order]. *)
Definition get_player_by_turn (turn : Z) (id : Z) : M Players.t := λ w,
  match query_seat turn id (db w) with
  | Some p => (Return p, w)
  | None => (Raise NoResultFound, w)
  end.

(** Modelled from the spec: [PlayerService.delete_player] ([deletePlayer]),
    absent from the sources: the row is removed and nothing else changes. *)
Definition delete_player (player_id : Z) : M unit := λ w,
  match query_player player_id (db w) with
  | Some _ => (Return tt, set_db (without_player player_id (db w)) w)
  | None => (Raise NoResultFound, w)
  end.

(** Python's [xs[0]]. *)
Definition subscript0 {A} (xs : list A) : M A :=
  match xs with
  | x :: _ => mret x
  | [] => raise IndexError
  end.

(** ** Connection manager ([app/connection_manager.py], absent) *)

(** Modelled from the spec: [create_game_connection] ([openSession]): an
    empty socket table for the match, a failure when one exists already. *)
Definition create_game_connection (game_id : Z) : M unit := λ w,
  match _games (manager w) !! game_id with
  | Some _ => (Raise (SessionAlreadyOpen game_id), w)
  | None =>
      (Return tt,
       set_manager (mkManager (<[game_id := ∅]> (_games (manager w)))
                              (_connections (manager w))) w)
  end.

(** Modelled from the spec: [connect_player_to_game] ([bind]); the two
    failures are the ones [tests/test_connections_manager.py] expects. *)
Definition connect_player_to_game (game_id player_id ws : Z) : M unit := λ w,
  match _games (manager w) !! game_id with
  | None => (Raise (GameConnectionDoesNotExist game_id), w)
  | Some conns =>
      match conns !! player_id with
      | Some _ => (Raise (PlayerAlreadyConnected game_id player_id), w)
      | None =>
          (Return tt,
           set_manager (mkManager
                          (<[game_id := <[player_id := ws]> conns]>
                             (_games (manager w)))
                          (_connections (manager w))) w)
      end
  end.

(** [del self._games[game_id][player_id]]. *)
Definition unbound (game_id player_id : Z) (conns : gmap Z Z)
    (c : ConnectionManager) : ConnectionManager :=
  mkManager (<[game_id := delete player_id conns]> (_games c))
            (_connections c).

(** Modelled from the spec: [disconnect_player_from_game] ([unbind]); the
    two failures are the ones [tests/test_connections_manager.py] expects,
    and the session stays open when it becomes empty. *)
Definition disconnect_player_from_game (game_id player_id : Z) : M unit := λ w,
  match _games (manager w) !! game_id with
  | None => (Raise (GameConnectionDoesNotExist game_id), w)
  | Some conns =>
      match conns !! player_id with
      | None => (Raise (PlayerNotConnected game_id player_id), w)
      | Some _ =>
          (Return tt,
           set_manager (unbound game_id player_id conns (manager w)) w)
      end
  end.

(** The sockets of a session that are still open. *)
Definition live_sockets (closed : gset Z) (conns : gmap Z Z) : list Z :=
  filter (λ ws, ws ∉ closed) (map_to_list conns).*2.

(** Modelled from the spec: [broadcast_to_game] ([broadcast]): the message
    goes to every bound socket of the session; sockets already closed do not
    stop the others and are reported afterwards as one [RuntimeError]. *)
Definition broadcast_to_game (game_id : Z) (msg : Message) : M unit := λ w,
  match _games (manager w) !! game_id with
  | None => (Raise (GameConnectionDoesNotExist game_id), w)
  | Some conns =>
      let socks := (map_to_list conns).*2 in
      let live := live_sockets (closed w) conns in
      let w' := log (EvBroadcast game_id msg live) w in
      if bool_decide (live = socks) then (Return tt, w')
      else (Raise RuntimeError, w')
  end.

(** Modelled from the spec: [add_anonymous_connection] ([addAnonymous]). *)
Definition add_anonymous_connection (ws : Z) : M unit :=
  modify (λ w, set_manager (mkManager (_games (manager w))
                                      (_connections (manager w) ++ [ws])) w).

(** Python's [list.remove]: drops the first occurrence, [ValueError] when
    there is none. *)
Fixpoint list_remove (x : Z) (l : list Z) : option (list Z) :=
  match l with
  | [] => None
  | y :: l' => if bool_decide (y = x) then Some l'
               else cons y <$> list_remove x l'
  end.

(** Modelled from the spec: [remove_anonymous_connection]
    ([removeAnonymous]).  The test of [tests/test_connections_manager.py]
    for it measures [_connections] with [len] and records that the second
    removal "raises ValueError but is handled": the removal from a list,
    whose failure is swallowed inside the manager. *)
Definition remove_anonymous_connection (ws : Z) : M unit :=
  try_except
    (λ w, match list_remove ws (_connections (manager w)) with
          | Some l => (Return tt,
                       set_manager (mkManager (_games (manager w)) l) w)
          | None => (Raise ValueError, w)
          end)
    (λ e, match e with ValueError => Some (mret tt) | _ => None end).

(** ** Card collaborators ([app/routers/matches.py], absent) *)

(** Modelled from the spec: [give_movement_card_to_player]
    ([issueMovementCard]); the card tables are outside this model, the call
    is recorded in the trace. *)
Definition give_movement_card_to_player (player_id : Z) : M unit :=
  modify (log (EvGiveMovementCard player_id)).

(** Modelled from the spec: [notify_movement_card_to_player], the private
    notification of the cards just issued. *)
Definition notify_movement_card_to_player (player_id : Z) (movs : unit)
  : M unit :=
  modify (log (EvNotifyMovementCard player_id)).

(** Modelled from the spec: [notify_all_players_movements_received]. *)
Definition notify_all_players_movements_received (player : Players.t)
    (match_ : MatchRef) : M unit :=
  modify (log (EvNotifyAllMovementsReceived (Players.id player) match_)).

(** Modelled from the spec: [give_shape_card_to_player]
    ([issueShapeCard(playerId, isInitialDeal)]). *)
Definition give_shape_card_to_player (player_id : Z) (is_init : bool)
  : M unit :=
  modify (log (EvGiveShapeCard player_id is_init)).

(** ** [app/models/models.py]: [Players.validate_turn_order] *)

Definition validate_turn_order (self : Players.t) (key : string)
    (turn_order : Z) : outcome Z :=
  if bool_decide (turn_order < 1) || bool_decide (turn_order > 4)
  then Raise ValueError
  else Return turn_order.

(** Assigning [player.turn_order = t] on a mapped object: [@validates] runs
    the validator first and the attribute takes the value it returns. *)
Definition assign_turn_order (self : Players.t) (t : Z) : outcome Players.t :=
  match validate_turn_order self "turn_order" t with
  | Raise e => Raise e
  | Return v =>
      Return (Players.mk (Players.id self) (Players.player_name self)
                         (Players.is_owner self) (Players.session_token self)
                         (Some v) (Players.match_id self))
  end.

(** ** [app/routers/players.py] *)

Definition except_RuntimeError (e : exn) : option (M unit) :=
  match e with
  | RuntimeError => Some (mret tt)
  | _ => None
  end.

Definition except_PlayerNotConnected (e : exn) : option (M unit) :=
  match e with
  | PlayerNotConnected _ _ => Some (mret tt)
  | _ => None
  end.

(** The three [except] clauses that close [leave_player]. *)
Definition except_leave_player {A} (e : exn) : option (M A) :=
  match e with
  | PlayerNotConnected _ _ =>
      Some (raise (HTTPException 404 "Player not connected to match"))
  | GameConnectionDoesNotExist _ =>
      Some (raise (HTTPException 404 "Match not found"))
  | NoResultFound =>
      Some (raise (HTTPException 404 "Match not found"))
  | _ => None
  end.

Definition playerWinner (match_id : Z) (reason : ReasonWinning) : M unit :=
  found ← get_players_by_match match_id;
  players ← subscript0 found;
  let player_id := Players.id players in
  delete_player player_id;;
  update_match match_id FINISHED 0;;
  let msg := WINNER player_id reason in
  try_except (broadcast_to_game match_id msg) except_RuntimeError.

(** The JSON body [{"player_id": ..., "players": ...}] of a leave. *)
Record LeaveResponse : Type := mkLeaveResponse {
  resp_player_id : Z;
  resp_players : string
}.

Definition leave_player (player_id match_id : Z) : M LeaveResponse :=
  try_except
    (player_to_delete ←
       try_except (get_player_by_id player_id)
         (λ e, match e with
               | ValueError =>
                   Some (raise (HTTPException 404
                     ("Player not found with id: " +:+ pretty player_id)))
               | _ => None
               end);
     match_to_leave ← get_match_by_id match_id;
     let player_name := Players.player_name player_to_delete in
     let player_match := Players.match_id player_to_delete in
     when_ (bool_decide (player_match ≠ Some match_id))
       (raise (HTTPException 404 "Player not in match"));;
     st ← getattr Matches.state match_to_leave;
     when_ (bool_decide (st = WAITING))
       (when_ (Players.is_owner player_to_delete)
          (raise (HTTPException 400 "Owner cannot leave match")));;
     match_to_leave ← get_match_by_id match_id;
     delete_player player_id;;
     try_except (disconnect_player_from_game match_id player_id)
       except_PlayerNotConnected;;
     st ← getattr Matches.state match_to_leave;
     n ← getattr Matches.current_players match_to_leave;
     update_match match_id st (n - 1);;
     let msg := PLAYER_LEFT player_name in
     try_except (broadcast_to_game match_id msg) except_RuntimeError;;
     n ← getattr Matches.current_players match_to_leave;
     st ← getattr Matches.state match_to_leave;
     when_ (bool_decide (n = 1) && bool_decide (st = STARTED))
       (playerWinner match_id FORFEIT);;
     mret (mkLeaveResponse player_id player_name))
    except_leave_player.

(** The 403 of [end_turn_logic], its detail an f-string over the name. *)
Definition not_your_turn (player : Players.t) : exn :=
  HTTPException 403
    ("It's not player " +:+ Players.player_name player +:+ "'s turn").

Definition end_turn_logic (player : Players.t) (match_ : MatchRef)
  : M Players.t :=
  turn ← getattr_current_player_turn match_;
  when_ (bool_decide (Players.turn_order player ≠ Some turn))
    (raise (not_your_turn player));;
  turn ← getattr_current_player_turn match_;
  n ← getattr Matches.current_players match_;
  (if bool_decide (turn = n)
   then update_turn match_ 1
   else update_turn match_ (turn + 1));;
  turn ← getattr_current_player_turn match_;
  next_player ← get_player_by_turn turn match_;
  mret next_player.

Definition end_turn (match_id player_id : Z) : M unit :=
  player ← try_except (get_player_by_id player_id)
             (λ _, Some (raise (HTTPException 404 "Player not found")));
  match_ ← try_except (get_match_by_id match_id)
             (λ _, Some (raise (HTTPException 404 "Match not found")));
  next_player ← end_turn_logic player match_;
  movs ← give_movement_card_to_player player_id;
  notify_movement_card_to_player player_id movs;;
  notify_all_players_movements_received player match_;;
  give_shape_card_to_player (Players.id next_player) false;;
  let msg := END_PLAYER_TURN (Players.player_name player)
                             (Players.player_name next_player)
                             (Players.turn_order next_player) in
  broadcast_to_game match_id msg.

(** ** States named by the properties *)

Definition decremented (m : Matches.t) : Matches.t :=
  Matches.mk (Matches.match_name m) (Matches.state m) (Matches.is_public m)
             (Matches.current_players m - 1) (Matches.max_players m).

Definition finished (m : Matches.t) : Matches.t :=
  Matches.mk (Matches.match_name m) FINISHED (Matches.is_public m) 0
             (Matches.max_players m).

(** The world in which [leave_player] stands once [PLAYER_LEFT] has been
    broadcast, before it looks for a forfeit. *)
Definition left_world (player_id id : Z) (p : Players.t) (m : Matches.t)
    (conns : gmap Z Z) (w : World) : World :=
  mkWorld (with_match id (decremented m) (without_player player_id (db w)))
          (unbound id player_id conns (manager w))
          (closed w)
          (trace w ++ [EvBroadcast id (PLAYER_LEFT (Players.player_name p))
                         (live_sockets (closed w) (delete player_id conns))]).

(** The world [playerWinner] leaves behind when [q] is the first player
    returned for the match. *)
Definition won_world (id : Z) (reason : ReasonWinning) (q : Players.t)
    (m : Matches.t) (conns : gmap Z Z) (w : World) : World :=
  mkWorld (with_match id (finished m) (without_player (Players.id q) (db w)))
          (manager w)
          (closed w)
          (trace w ++ [EvBroadcast id (WINNER (Players.id q) reason)
                         (live_sockets (closed w) conns)]).

(** [bound game_id player_id c]: the registry holds a socket for the player
    in the session of the match. *)
Definition bound (game_id player_id : Z) (c : ConnectionManager) : Prop :=
  ∃ conns ws,
    _games c !! game_id = Some conns ∧ conns !! player_id = Some ws.

(** The seats of a match are dense when the turn orders of its rows are
    [1 .. current_players], each taken once. *)
Definition dense_turn_orders (id : Z) (s : Session) : Prop :=
  ∃ m, matches s !! id = Some m
       ∧ Players.turn_order <$> query_players_of id s
         ≡ₚ Some <$> seqZ 1 (Matches.current_players m).

(** ** A table of four seats used by the examples *)

Definition ana : Players.t :=
  Players.mk 1 "ana" true "tok-ana" (Some 1) (Some 7).
Definition bob : Players.t :=
  Players.mk 2 "bob" false "tok-bob" (Some 2) (Some 7).
Definition cyd : Players.t :=
  Players.mk 3 "cyd" false "tok-cyd" (Some 3) (Some 7).
Definition dee : Players.t :=
  Players.mk 4 "dee" false "tok-dee" (Some 4) (Some 7).

Definition match7 (st : MatchState) (n : Z) : Matches.t :=
  Matches.mk "mesa" st true n 4.

Definition sockets (rows : list Players.t) : gmap Z Z :=
  list_to_map ((λ p, (Players.id p, 100 + Players.id p)) <$> rows).

(** Match 7 with the given rows, every player connected (player [i] on
    socket [100 + i]), no socket closed, nothing sent yet. *)
Definition table (rows : list Players.t) (m : Matches.t) : World :=
  mkWorld (mkSession {[7 := m]} rows)
          (mkManager {[7 := sockets rows]} [])
          ∅ [].

(** Three players at the table, the match under way. *)
Definition started3 : World := table [ana; bob; cyd] (match7 STARTED 3).

(** The lobby of the same match before it starts. *)
Definition lobby3 : World := table [ana; bob; cyd] (match7 WAITING 3).

(** Four players at the table, the match under way. *)
Definition started4 : World := table [ana; bob; cyd; dee] (match7 STARTED 4).

(** A lobby for two: [max_players] is 2. *)
Definition duo : World :=
  table [ana; bob] (Matches.mk "duo" WAITING true 2 2).

(** An open lobby-listing socket among the anonymous connections. *)
Definition lobby_viewers (l : list Z) : World :=
  mkWorld (mkSession ∅ []) (mkManager ∅ l) ∅ [].

(** The manager of [tests/test_connections_manager.py] before each test. *)
Definition fresh_manager : World :=
  mkWorld (mkSession ∅ []) (mkManager ∅ []) ∅ [].

(** Runs [m] and keeps the world it leaves. *)
Definition exec {A} (m : M A) (w : World) : World := (m w).2.

(** ** More of the leave workflow *)

(** The same world with another set of closed sockets. *)
Definition reclosed (c : gset Z) (w : World) : World :=
  mkWorld (db w) (manager w) c (trace w).

(** The 404 that opens [leave_player], its detail an f-string over the id. *)
Definition player_not_found (player_id : Z) : exn :=
  HTTPException 404 ("Player not found with id: " +:+ pretty player_id).

(** [current_players] counts the rows of the match: the reading of the
    column that the docstring of [Matches] gives. *)
Definition counts_its_rows (id : Z) (s : Session) : Prop :=
  ∃ m, matches s !! id = Some m
       ∧ Z.of_nat (length (query_players_of id s))
         = Matches.current_players m.

(** ** What a handler leaves alone *)

(** [keeps R m]: from every world, whatever [m] returns or raises, the world
    it leaves is related by [R] to the one it started from. *)
Definition keeps {A} (R : World → World → Prop) (m : M A) : Prop :=
  ∀ w, R w (m w).2.

(** The columns of a match that neither [update_match] argument reaches. *)
Definition fixed_columns (m : Matches.t) : string * bool * Z :=
  (Matches.match_name m, Matches.is_public m, Matches.max_players m).

(** The store after a request on match [id]: every other match is as it
    was, the match itself keeps its row and its fixed columns, and the
    player rows are the old ones with some removed. *)
Definition store_kept (id : Z) (w w' : World) : Prop :=
  (∀ id', id' ≠ id → matches (db w') !! id' = matches (db w) !! id')
  ∧ fixed_columns <$> matches (db w') !! id
    = fixed_columns <$> matches (db w) !! id
  ∧ players (db w') `sublist_of` players (db w).

(** The session of [id] before and after: still open or still absent, and
    no binding added. *)
Definition bindings_shrink (id : Z) (c c' : ConnectionManager) : Prop :=
  match _games c !! id, _games c' !! id with
  | Some conns, Some conns' => conns' ⊆ conns
  | None, None => True
  | _, _ => False
  end.

(** The registry after a request on match [id]: the closed sockets, the
    anonymous connections and every other session are as they were. *)
Definition registry_kept (id : Z) (w w' : World) : Prop :=
  closed w' = closed w
  ∧ _connections (manager w') = _connections (manager w)
  ∧ (∀ g, g ≠ id → _games (manager w') !! g = _games (manager w) !! g)
  ∧ bindings_shrink id (manager w) (manager w').

(** The two messages of a leave, addressed to match [id]. *)
Definition is_leave_event (id : Z) (e : Event) : bool :=
  match e with
  | EvBroadcast g (PLAYER_LEFT _) _ => bool_decide (g = id)
  | EvBroadcast g (WINNER _ FORFEIT) _ => bool_decide (g = id)
  | _ => false
  end.

(** The trace after a leave on match [id]: the old one followed by
    broadcasts of a leave to that match. *)
Definition trace_kept (id : Z) (w w' : World) : Prop :=
  ∃ evs, trace w' = trace w ++ evs
         ∧ Forall (λ e, is_leave_event id e = true) evs.

(** ** The enumerations of [app/models/enums.py] *)

Module Shapes.
Inductive t : Type :=
| T | INVERSE_SNAKE | SNAKE | STAIRS | LINE | L | INVERSE_L_90 | L_90
| TOILET | Z_90 | INVERSE_TOILET | S_90 | BATON | INVERSE_BATON | TURTLE
| U | PLUS | DOG.

Definition value (s : t) : Z :=
  match s with
  | T => 1 | INVERSE_SNAKE => 2 | SNAKE => 3 | STAIRS => 4 | LINE => 5
  | L => 6 | INVERSE_L_90 => 7 | L_90 => 8 | TOILET => 9 | Z_90 => 10
  | INVERSE_TOILET => 11 | S_90 => 12 | BATON => 13 | INVERSE_BATON => 14
  | TURTLE => 15 | U => 16 | PLUS => 17 | DOG => 18
  end.

(** The members in definition order; [value <$> members] are the keys of
    [_value2member_map_]. *)
Definition members : list t :=
  [T; INVERSE_SNAKE; SNAKE; STAIRS; LINE; L; INVERSE_L_90; L_90; TOILET;
   Z_90; INVERSE_TOILET; S_90; BATON; INVERSE_BATON; TURTLE; U; PLUS; DOG].
End Shapes.

Module Movements.
Inductive t : Type :=
| DIAGONAL | INVERSE_DIAGONAL | LINE | LINE_BETWEEN | LINE_BORDER | L
| INVERSE_L.

Definition value (m : t) : string :=
  match m with
  | DIAGONAL => "Diagonal"
  | INVERSE_DIAGONAL => "Inverse Diagonal"
  | LINE => "Line"
  | LINE_BETWEEN => "Line Between"
  | LINE_BORDER => "Line Border"
  | L => "L"
  | INVERSE_L => "Inverse L"
  end.

Definition members : list t :=
  [DIAGONAL; INVERSE_DIAGONAL; LINE; LINE_BETWEEN; LINE_BORDER; L; INVERSE_L].
End Movements.

Module Colors.
Inductive t : Type := RED | GREEN | BLUE | YELLOW.

Definition value (c : t) : string :=
  match c with
  | RED => "red" | GREEN => "green" | BLUE => "blue" | YELLOW => "yellow"
  end.

Definition members : list t := [RED; GREEN; BLUE; YELLOW].
End Colors.

(** [MatchState] as the column stores it. *)
Definition MatchState_value (s : MatchState) : string :=
  match s with
  | WAITING => "WAITING" | STARTED => "STARTED" | FINISHED => "FINISHED"
  end.

Definition MatchState_members : list MatchState :=
  [WAITING; STARTED; FINISHED].

(** ** The other validators of [app/models/models.py] *)

(** [Matches.validate_state]: the state as a string, before it is read as
    a member of [MatchState]. *)
Definition validate_state (self : Matches.t) (key : string) (state : string)
  : outcome string :=
  if bool_decide (state ∉ MatchState_value <$> MatchState_members)
  then Raise ValueError
  else Return state.

(** A row of the [boards] table; the primary key is the key of the table
    map. *)
Module Boards.
Record t : Type := mk {
  ban_color : option string;
  match_id : Z;
  current_player_turn : option Z;
  next_player_turn : option Z
}.

Definition validate_ban_color (self : t) (key : string) (color : string)
  : outcome string :=
  if bool_decide (color ∉ Colors.value <$> Colors.members)
  then Raise ValueError
  else Return color.
End Boards.

(** A row of the [tiles] table. *)
Module Tiles.
Record t : Type := mk {
  color : string;
  position_x : Z;
  position_y : Z;
  board_id : Z
}.

Definition validate_position (self : t) (key : string) (position : Z)
  : outcome Z :=
  if bool_decide (position < 0) || bool_decide (position > 5)
  then Raise ValueError
  else Return position.

Definition validate_color (self : t) (key : string) (color : string)
  : outcome string :=
  if bool_decide (color ∉ Colors.value <$> Colors.members)
  then Raise ValueError
  else Return color.
End Tiles.

(** A row of the [shapeCards] table. *)
Module ShapeCards.
Record t : Type := mk {
  shape_type : Z;
  is_hard : bool;
  is_visible : bool;
  is_blocked : bool;
  player_owner : Z
}.

Definition validate_shape (self : t) (key : string) (shape : Z) : outcome Z :=
  if bool_decide (shape ∉ Shapes.value <$> Shapes.members)
  then Raise ValueError
  else Return shape.
End ShapeCards.

(** A row of the [movementCards] table. *)
Module MovementCards.
Record t : Type := mk {
  mov_type : string;
  player_owner : option Z
}.

Definition validate_movement (self : t) (key : string) (movement : string)
  : outcome string :=
  if bool_decide (movement ∉ Movements.value <$> Movements.members)
  then Raise ValueError
  else Return movement.
End MovementCards.

(** ** [app/cruds/board.py]: [BoardService] *)

(** The helpers of [app/utils/utils.py], which is not among the sources,
    and the key the database gives a new row, are parameters of the
    service: the three checks receive no session; they may read the table
    and raise, and write nothing. *)
Module Utils.
Record t : Type := mk {
  validate_color : string → gmap Z Boards.t → outcome unit;
  validate_turn :
    option Z → option Z → option Z → gmap Z Boards.t → outcome unit;
  validate_board : Z → gmap Z Boards.t → outcome unit;
  next_rowid : gmap Z Boards.t → Z
}.
End Utils.

Module BoardService.

(** A [Boards] object in Python: its primary key ([None] until the row is
    flushed), its mapped columns, and [current_player], an attribute that
    [create_board] and [update_turn] set and that is no column of the
    table. *)
Record BoardObject : Type := mkBoardObject {
  obj_id : option Z;
  obj_row : Boards.t;
  obj_current_player : option Z
}.

Definition with_ban_color (c : option string) (o : BoardObject)
  : BoardObject :=
  mkBoardObject (obj_id o)
    (Boards.mk c (Boards.match_id (obj_row o))
       (Boards.current_player_turn (obj_row o))
       (Boards.next_player_turn (obj_row o)))
    (obj_current_player o).

Definition with_next_player_turn (n : option Z) (o : BoardObject)
  : BoardObject :=
  mkBoardObject (obj_id o)
    (Boards.mk (Boards.ban_color (obj_row o)) (Boards.match_id (obj_row o))
       (Boards.current_player_turn (obj_row o)) n)
    (obj_current_player o).

Definition with_current_player (n : option Z) (o : BoardObject)
  : BoardObject :=
  mkBoardObject (obj_id o) (obj_row o) n.

(** The service over its table: the state survives a raised exception. *)
Definition B (A : Type) : Type :=
  gmap Z Boards.t → outcome A * gmap Z Boards.t.

#[global] Instance B_ret : MRet B := λ A a tbl, (Return a, tbl).
#[global] Instance B_bind : MBind B := λ A C k m tbl,
  match m tbl with
  | (Return a, tbl') => k a tbl'
  | (Raise e, tbl') => (Raise e, tbl')
  end.

(** A call of one of the checks, and a validator of the model run on an
    assignment. *)
Definition call (check : gmap Z Boards.t → outcome unit) : B unit :=
  λ tbl, (check tbl, tbl).
Definition lift {A} (o : outcome A) : B A := λ tbl, (o, tbl).

(** [db.query(Boards).filter(Boards.id == board_id).one()]. *)
Definition one (board_id : Z) : B Boards.t := λ tbl,
  match tbl !! board_id with
  | Some b => (Return b, tbl)
  | None => (Raise NoResultFound, tbl)
  end.

(** [db.commit()] with a loaded object changed: its columns are written to
    its row. *)
Definition flush (board_id : Z) (o : BoardObject) : B unit :=
  λ tbl, (Return tt, <[board_id := obj_row o]> tbl).

(** Python's truth value of an optional string and of an optional integer:
    [None], the empty string and 0 count as absent. *)
Definition nonempty (s : option string) : option string :=
  match s with
  | Some c => if bool_decide (c = "") then None else Some c
  | None => None
  end.

Definition nonzero (n : option Z) : option Z :=
  match n with
  | Some k => if bool_decide (k = 0) then None else Some k
  | None => None
  end.

(** The integers that SQLite binds: 64 bits, signed. *)
Definition sqlite_int (n : Z) : bool := bool_decide (- 2 ^ 63 ≤ n < 2 ^ 63).

(** The integer columns of a row all fit; a NULL always does. *)
Definition storable (b : Boards.t) : bool :=
  sqlite_int (Boards.match_id b)
  && from_option sqlite_int true (Boards.current_player_turn b)
  && from_option sqlite_int true (Boards.next_player_turn b).

(** [db.add(new_board); db.commit()]: the row is inserted under the key the
    database assigns, which the object then carries.  Python's integers are
    unbounded: with one that SQLite cannot bind the INSERT raises
    [OverflowError], and the commit is rolled back with nothing written. *)
Definition add (U : Utils.t) (o : BoardObject) : B BoardObject := λ tbl,
  if storable (obj_row o) then
    let i := Utils.next_rowid U tbl in
    (Return (mkBoardObject (Some i) (obj_row o) (obj_current_player o)),
     <[i := obj_row o]> tbl)
  else (Raise OverflowError, tbl).

(** [db.delete(board); db.commit()]. *)
Definition remove (board_id : Z) : B unit :=
  λ tbl, (Return tt, delete board_id tbl).

Definition create_board (U : Utils.t) (match_id : Z)
    (ban_color : option string) (current_player next_player_turn : option Z)
  : B BoardObject :=
  let new_board :=
    mkBoardObject None (Boards.mk None match_id None None) None in
  new_board ←
    (if nonempty ban_color is Some c then
       call (Utils.validate_color U c);;
       c' ← lift (Boards.validate_ban_color (obj_row new_board)
                    "ban_color" c);
       mret (with_ban_color (Some c') new_board)
     else mret new_board);
  new_board ←
    (if nonzero current_player is Some cp then
       call (Utils.validate_turn U current_player next_player_turn
               (obj_id new_board));;
       mret (with_current_player (Some cp) new_board)
     else mret new_board);
  new_board ←
    (if nonzero next_player_turn is Some np then
       call (Utils.validate_turn U current_player next_player_turn
               (obj_id new_board));;
       mret (with_next_player_turn (Some np) new_board)
     else mret new_board);
  add U new_board.

(** Rows in the order of the primary key, in which SQLite scans a table
    for a query without ORDER BY. *)
Definition by_id : relation (Z * Boards.t) := λ x y, x.1 ≤ y.1.

#[global] Instance by_id_dec : RelDecision by_id :=
  λ x y, decide (x.1 ≤ y.1).

Definition get_all_boards : B (list (Z * Boards.t)) :=
  λ tbl, (Return (merge_sort by_id (map_to_list tbl)), tbl).

Definition get_board_by_id (U : Utils.t) (board_id : Z) : B Boards.t :=
  board ← one board_id;
  call (Utils.validate_board U board_id);;
  mret board.

Definition update_ban_color (U : Utils.t) (board_id : Z) (ban_color : string)
  : B unit :=
  call (Utils.validate_color U ban_color);;
  board ← one board_id;
  c' ← lift (Boards.validate_ban_color board "ban_color" ban_color);
  flush board_id
    (with_ban_color (Some c') (mkBoardObject (Some board_id) board None)).

Definition delete_board (U : Utils.t) (board_id : Z) : B unit :=
  board ← one board_id;
  call (Utils.validate_board U board_id);;
  remove board_id.

Definition update_turn (U : Utils.t) (board_id current_player
    next_player_turn : Z) : B unit :=
  call (Utils.validate_turn U (Some current_player) (Some next_player_turn)
          (Some board_id));;
  board ← one board_id;
  flush board_id
    (with_current_player (Boards.next_player_turn board)
       (mkBoardObject (Some board_id) board None)).

(** Every board of the table satisfies [P]. *)
Definition all_boards (P : Boards.t → Prop) (tbl : gmap Z Boards.t) : Prop :=
  ∀ i b, tbl !! i = Some b → P b.

(** A ban colour, when there is one, is a value of [Colors]. *)
Definition ban_color_valid (b : Boards.t) : Prop :=
  ∀ c, Boards.ban_color b = Some c → c ∈ Colors.value <$> Colors.members.

(** The utilities that accept everything, with the key SQLite gives a new
    row: one more than the largest key. *)
Definition lenient : Utils.t :=
  Utils.mk (λ _ _, Return tt) (λ _ _ _ _, Return tt) (λ _ _, Return tt)
           (λ tbl, 1 + foldr Z.max 0 (map_to_list tbl).*1).

(** Two boards, of matches 7 and 8. *)
Definition two_boards : gmap Z Boards.t :=
  {[1 := Boards.mk (Some "red") 7 None (Some 2);
    2 := Boards.mk None 8 None None]}.

End BoardService.

(** * Properties *)

(** ** Running the monad *)

Lemma run_bind {A B} (m : M A) (k : A → M B) (w : World) :
  (m ≫= k) w = match m w with
               | (Return a, w') => k a w'
               | (Raise e, w') => (Raise e, w')
               end.
Proof. reflexivity. Qed.

Lemma run_bind_Return {A B} (m : M A) (k : A → M B) w a w' :
  m w = (Return a, w') → (m ≫= k) w = k a w'.
Proof. intros H. rewrite run_bind, H. reflexivity. Qed.

Lemma run_bind_Raise {A B} (m : M A) (k : A → M B) w e w' :
  m w = (Raise e, w') → (m ≫= k) w = (Raise e, w').
Proof. intros H. rewrite run_bind, H. reflexivity. Qed.

Lemma run_try_Return {A} (m : M A) h w a w' :
  m w = (Return a, w') → try_except m h w = (Return a, w').
Proof. intros H. unfold try_except. rewrite H. reflexivity. Qed.

Lemma run_try_Raise {A} (m : M A) h w e w' :
  m w = (Raise e, w') →
  try_except m h w = match h e with
                     | Some k => k w'
                     | None => (Raise e, w')
                     end.
Proof. intros H. unfold try_except. rewrite H. reflexivity. Qed.

Lemma run_get_player_by_id w player_id p :
  query_player player_id (db w) = Some p →
  get_player_by_id player_id w = (Return p, w).
Proof. intros H. unfold get_player_by_id. rewrite H. reflexivity. Qed.

Lemma run_get_match_by_id w id m :
  matches (db w) !! id = Some m → get_match_by_id id w = (Return id, w).
Proof. intros H. unfold get_match_by_id. rewrite H. reflexivity. Qed.

Lemma run_getattr {A} (f : Matches.t → A) w id m :
  matches (db w) !! id = Some m → getattr f id w = (Return (f m), w).
Proof. intros H. unfold getattr. rewrite H. reflexivity. Qed.

(** ** Owner leaving a lobby *)

Lemma leave_player_owner_waiting w player_id id p m :
  query_player player_id (db w) = Some p →
  matches (db w) !! id = Some m →
  Players.match_id p = Some id →
  Matches.state m = WAITING →
  Players.is_owner p = true →
  leave_player player_id id w
  = (Raise (HTTPException 400 "Owner cannot leave match"), w).
Proof.
  intros Hp Hm Hin Hst Hown. unfold leave_player.
  erewrite run_try_Raise; cycle 1.
  { erewrite run_bind_Return
      by (eapply run_try_Return, run_get_player_by_id, Hp).
  erewrite run_bind_Return by (eapply run_get_match_by_id, Hm).
  cbn zeta. rewrite Hin, bool_decide_eq_false_2 by (intros ?; congruence).
  erewrite run_bind_Return by reflexivity.
  erewrite run_bind_Return by (eapply run_getattr, Hm).
  rewrite Hst, Hown. reflexivity. }
  reflexivity.
Qed.

(** ** Steps of the leave workflow *)

Lemma run_delete_player w player_id p :
  query_player player_id (db w) = Some p →
  delete_player player_id w
  = (Return tt, set_db (without_player player_id (db w)) w).
Proof. intros H. unfold delete_player. rewrite H. reflexivity. Qed.

Lemma run_update_match w id m st n :
  matches (db w) !! id = Some m →
  update_match id st n w
  = (Return tt,
     set_db (with_match id
               (Matches.mk (Matches.match_name m) st (Matches.is_public m) n
                           (Matches.max_players m)) (db w)) w).
Proof. intros H. unfold update_match. rewrite H. reflexivity. Qed.

Lemma unbound_absent game_id player_id conns c :
  _games c !! game_id = Some conns →
  conns !! player_id = None →
  unbound game_id player_id conns c = c.
Proof.
  intros Hg Hc. unfold unbound. destruct c as [g a]; simpl in *.
  rewrite delete_id by exact Hc. rewrite insert_id by exact Hg. reflexivity.
Qed.

Lemma run_disconnect_tolerant w game_id player_id conns :
  _games (manager w) !! game_id = Some conns →
  try_except (disconnect_player_from_game game_id player_id)
    except_PlayerNotConnected w
  = (Return tt, set_manager (unbound game_id player_id conns (manager w)) w).
Proof.
  intros Hg. unfold try_except, disconnect_player_from_game. rewrite Hg.
  destruct (conns !! player_id) eqn:Hc; [reflexivity|].
  rewrite unbound_absent by assumption. destruct w; reflexivity.
Qed.

Lemma run_broadcast_tolerant w game_id msg conns :
  _games (manager w) !! game_id = Some conns →
  try_except (broadcast_to_game game_id msg) except_RuntimeError w
  = (Return tt,
     log (EvBroadcast game_id msg (live_sockets (closed w) conns)) w).
Proof.
  intros Hg. unfold try_except, broadcast_to_game. rewrite Hg.
  case_bool_decide; reflexivity.
Qed.

Lemma run_broadcast_missing w game_id msg :
  _games (manager w) !! game_id = None →
  broadcast_to_game game_id msg w
  = (Raise (GameConnectionDoesNotExist game_id), w).
Proof. intros Hg. unfold broadcast_to_game. rewrite Hg. reflexivity. Qed.

(** ** The leave workflow *)

Ltac step tac := erewrite run_bind_Return by tac.

Lemma query_player_of_row id q rest s :
  query_players_of id s = q :: rest →
  is_Some (query_player (Players.id q) s).
Proof.
  intros H. unfold query_player. apply head_is_Some. intros Hnil.
  assert (q ∈ players s) as Hq.
  { assert (q ∈ query_players_of id s) as Hin by (rewrite H; left).
    unfold query_players_of in Hin. apply list_elem_of_filter in Hin. tauto. }
  exact (filter_nil_not_elem_of _ _ q Hnil eq_refl Hq).
Qed.

Lemma run_playerWinner w id reason q rest m conns :
  query_players_of id (db w) = q :: rest →
  matches (db w) !! id = Some m →
  _games (manager w) !! id = Some conns →
  playerWinner id reason w = (Return tt, won_world id reason q m conns w).
Proof.
  intros Hq Hm Hg. unfold playerWinner.
  step ltac:(reflexivity). cbn beta. rewrite Hq.
  step ltac:(reflexivity).
  destruct (query_player_of_row _ _ _ _ Hq) as [q' Hq'].
  step ltac:(eapply run_delete_player, Hq').
  step ltac:(eapply run_update_match, Hm).
  erewrite run_broadcast_tolerant by exact Hg. reflexivity.
Qed.

Lemma leave_player_reaches_check w player_id id p m conns :
  query_player player_id (db w) = Some p →
  matches (db w) !! id = Some m →
  Players.match_id p = Some id →
  (Matches.state m = WAITING → Players.is_owner p = false) →
  _games (manager w) !! id = Some conns →
  leave_player player_id id w
  = try_except
      (when_ (bool_decide (Matches.current_players m - 1 = 1)
              && bool_decide (Matches.state m = STARTED))
         (playerWinner id FORFEIT);;
       mret (mkLeaveResponse player_id (Players.player_name p)))
      except_leave_player
      (left_world player_id id p m conns w).
Proof.
  intros Hp Hm Hin Hlobby Hg. unfold leave_player.
  unfold try_except at 1; unfold try_except at 3.
  step ltac:(eapply run_try_Return, run_get_player_by_id, Hp).
  step ltac:(eapply run_get_match_by_id, Hm).
  cbn zeta. rewrite Hin, bool_decide_eq_false_2 by (intros ?; congruence).
  step ltac:(reflexivity).
  step ltac:(eapply run_getattr, Hm).
  erewrite (run_bind_Return _ _ _ tt w).
  2:{ case_bool_decide; [|reflexivity]. rewrite Hlobby by assumption.
      reflexivity. }
  step ltac:(eapply run_get_match_by_id, Hm).
  step ltac:(eapply run_delete_player, Hp).
  step ltac:(eapply run_disconnect_tolerant, Hg).
  step ltac:(eapply run_getattr, Hm).
  step ltac:(eapply run_getattr, Hm).
  step ltac:(eapply run_update_match, Hm).
  erewrite run_bind_Return.
  2:{ eapply run_broadcast_tolerant. simpl. apply lookup_insert_eq. }
  erewrite run_bind_Return.
  2:{ eapply run_getattr. simpl. apply lookup_insert_eq. }
  erewrite run_bind_Return.
  2:{ eapply run_getattr. simpl. apply lookup_insert_eq. }
  reflexivity.
Qed.

Lemma leave_player_plain w player_id id p m conns :
  query_player player_id (db w) = Some p →
  matches (db w) !! id = Some m →
  Players.match_id p = Some id →
  (Matches.state m = WAITING → Players.is_owner p = false) →
  _games (manager w) !! id = Some conns →
  ¬ (Matches.current_players m = 2 ∧ Matches.state m = STARTED) →
  leave_player player_id id w
  = (Return (mkLeaveResponse player_id (Players.player_name p)),
     left_world player_id id p m conns w).
Proof.
  intros Hp Hm Hin Hlobby Hg Hnf.
  rewrite (leave_player_reaches_check w player_id id p m conns) by assumption.
  assert (bool_decide (Matches.current_players m - 1 = 1)
          && bool_decide (Matches.state m = STARTED) = false) as ->.
  { apply andb_false_iff.
    destruct (decide (Matches.state m = STARTED)) as [Hs|Hs].
    - left. apply bool_decide_eq_false_2. intros ?. apply Hnf.
      split; [lia|done].
    - right. by apply bool_decide_eq_false_2. }
  reflexivity.
Qed.

Lemma leave_player_forfeit w player_id id p m conns q rest :
  query_player player_id (db w) = Some p →
  matches (db w) !! id = Some m →
  Players.match_id p = Some id →
  _games (manager w) !! id = Some conns →
  Matches.current_players m = 2 →
  Matches.state m = STARTED →
  query_players_of id (without_player player_id (db w)) = q :: rest →
  leave_player player_id id w
  = (Return (mkLeaveResponse player_id (Players.player_name p)),
     won_world id FORFEIT q (decremented m) (delete player_id conns)
       (left_world player_id id p m conns w)).
Proof.
  intros Hp Hm Hin Hg Hn Hst Hq.
  rewrite (leave_player_reaches_check w player_id id p m conns);
    [|assumption|assumption|assumption|intros; congruence|assumption].
  rewrite Hn, Hst. simpl when_.
  erewrite run_try_Return; [reflexivity|].
  erewrite run_bind_Return; [reflexivity|].
  eapply run_playerWinner.
  - exact Hq.
  - simpl. apply lookup_insert_eq.
  - simpl. apply lookup_insert_eq.
Qed.

(** ** Rows that survive a deletion *)

Lemma query_player_Some player_id s p :
  query_player player_id s = Some p →
  Players.id p = player_id ∧ p ∈ players s.
Proof.
  unfold query_player. intros H.
  destruct (filter _ (players s)) as [|x l] eqn:Hf; [discriminate|].
  injection H as ->.
  assert (p ∈ filter (λ p, Players.id p = player_id) (players s)) as Hin
    by (rewrite Hf; left).
  by apply list_elem_of_filter in Hin.
Qed.

Lemma query_player_without player_id s :
  query_player player_id (without_player player_id s) = None.
Proof.
  unfold query_player, without_player; simpl.
  rewrite list_filter_filter.
  destruct (filter _ (players s)) as [|x l] eqn:Hf; [reflexivity|].
  assert (x ∈ x :: l) as Hin by left. rewrite <- Hf in Hin.
  apply list_elem_of_filter in Hin. tauto.
Qed.

Lemma query_players_of_without id player_id s :
  query_players_of id (without_player player_id s)
  = filter (λ p, Players.id p ≠ player_id) (query_players_of id s).
Proof.
  unfold query_players_of, without_player; simpl.
  rewrite !list_filter_filter. apply list_filter_iff. tauto.
Qed.

Lemma query_players_of_with_match id id' m s :
  query_players_of id (with_match id' m s) = query_players_of id s.
Proof. reflexivity. Qed.

Lemma sole_survivor id player_id s p q :
  query_players_of id s ≡ₚ [p; q] →
  Players.id p = player_id →
  Players.id q ≠ player_id →
  query_players_of id (without_player player_id s) = [q].
Proof.
  intros Hperm Hp Hq. rewrite query_players_of_without.
  apply Permutation_singleton_r. rewrite Hperm.
  rewrite filter_cons_False by (intros H; exact (H Hp)).
  rewrite filter_cons_True by exact Hq. reflexivity.
Qed.

Lemma unbound_not_bound game_id player_id conns c :
  ¬ bound game_id player_id (unbound game_id player_id conns c).
Proof.
  intros (conns' & ws & Hg & Hc). unfold unbound in Hg; simpl in Hg.
  rewrite lookup_insert_eq in Hg. injection Hg as <-.
  by rewrite lookup_delete_eq in Hc.
Qed.

(** ** Forfeit *)

(** C1. A non-owner leaves a STARTED match of two players (the rows of the
    match are the departing player [p] and one other player [q], and the
    session of the match is open): the request succeeds, the match ends up
    FINISHED with [current_players = 0], the broadcasts are [PLAYER_LEFT]
    and then [WINNER] carrying the id of [q] and the forfeit reason, and
    the departing player is no longer bound in the registry. *)
Theorem leave_started_two_players_forfeit w player_id id p q m conns :
  query_player player_id (db w) = Some p →
  Players.is_owner p = false →
  matches (db w) !! id = Some m →
  Matches.state m = STARTED →
  Matches.current_players m = 2 →
  query_players_of id (db w) ≡ₚ [p; q] →
  Players.id q ≠ player_id →
  _games (manager w) !! id = Some conns →
  ∃ w' l1 l2,
    leave_player player_id id w
    = (Return (mkLeaveResponse player_id (Players.player_name p)), w')
    ∧ Matches.current_players <$> matches (db w') !! id = Some 0
    ∧ Matches.state <$> matches (db w') !! id = Some FINISHED
    ∧ trace w'
      = trace w ++ [EvBroadcast id (PLAYER_LEFT (Players.player_name p)) l1;
                    EvBroadcast id (WINNER (Players.id q) FORFEIT) l2]
    ∧ ¬ bound id player_id (manager w')
    ∧ is_Some (_games (manager w') !! id).
Proof.
  intros Hp _ Hm Hst Hn Hrows Hq Hg.
  destruct (query_player_Some _ _ _ Hp) as [Hid Hin].
  assert (Players.match_id p = Some id) as Hmatch.
  { assert (p ∈ query_players_of id (db w)) as Hp' by (rewrite Hrows; left).
    unfold query_players_of in Hp'.
    apply list_elem_of_filter in Hp'. tauto. }
  pose proof (sole_survivor _ _ _ _ _ Hrows Hid Hq) as Hsole.
  eexists _, _, _. split.
  { eapply leave_player_forfeit; eassumption. }
  simpl. rewrite !lookup_insert_eq. simpl.
  split_and!; try reflexivity.
  - rewrite <- app_assoc. reflexivity.
  - apply unbound_not_bound.
  - eauto.
Qed.

Lemma leave_started_two_players_forfeit_witness :
  ∃ w' l1 l2,
    leave_player 2 7 (table [ana; bob] (match7 STARTED 2))
    = (Return (mkLeaveResponse 2 "bob"), w')
    ∧ Matches.current_players <$> matches (db w') !! 7 = Some 0
    ∧ Matches.state <$> matches (db w') !! 7 = Some FINISHED
    ∧ trace w' = [] ++ [EvBroadcast 7 (PLAYER_LEFT "bob") l1;
                        EvBroadcast 7 (WINNER 1 FORFEIT) l2]
    ∧ ¬ bound 7 2 (manager w')
    ∧ is_Some (_games (manager w') !! 7).
Proof.
  apply (leave_started_two_players_forfeit
           (table [ana; bob] (match7 STARTED 2)) 2 7 bob ana
           (match7 STARTED 2) (sockets [ana; bob])).
  - reflexivity.
  - reflexivity.
  - reflexivity.
  - reflexivity.
  - reflexivity.
  - apply perm_swap.
  - simpl. lia.
  - reflexivity.
Defined.

(** C10. In the forfeit scenario of a leave, [playerWinner] deletes the row
    of the surviving player [q] as well: afterwards the match has no player
    rows left, and the [player_id] of the [WINNER] message names a player
    whose row is gone. *)
Theorem forfeit_deletes_the_winner w player_id id p q m conns :
  query_player player_id (db w) = Some p →
  matches (db w) !! id = Some m →
  Matches.state m = STARTED →
  Matches.current_players m = 2 →
  query_players_of id (db w) ≡ₚ [p; q] →
  Players.id q ≠ player_id →
  _games (manager w) !! id = Some conns →
  ∃ w' live,
    leave_player player_id id w
    = (Return (mkLeaveResponse player_id (Players.player_name p)), w')
    ∧ q ∈ query_players_of id (db w)
    ∧ query_players_of id (db w') = []
    ∧ EvBroadcast id (WINNER (Players.id q) FORFEIT) live ∈ trace w'
    ∧ query_player (Players.id q) (db w') = None.
Proof.
  intros Hp Hm Hst Hn Hrows Hq Hg.
  destruct (query_player_Some _ _ _ Hp) as [Hid Hin].
  assert (p ∈ query_players_of id (db w)) as Hp' by (rewrite Hrows; left).
  assert (Players.match_id p = Some id) as Hmatch.
  { unfold query_players_of in Hp'. apply list_elem_of_filter in Hp'. tauto. }
  pose proof (sole_survivor _ _ _ _ _ Hrows Hid Hq) as Hsole.
  eexists _, _. split.
  { eapply leave_player_forfeit; eassumption. }
  split_and!.
  - rewrite Hrows. right; left.
  - unfold won_world, left_world; cbn [db].
    rewrite query_players_of_with_match, query_players_of_without.
    rewrite query_players_of_with_match, Hsole.
    rewrite filter_cons_False by (intros H; by apply H). reflexivity.
  - unfold won_world; cbn [trace]. apply elem_of_app. right. left.
  - unfold won_world; cbn [db]. apply query_player_without.
Qed.

Lemma forfeit_deletes_the_winner_witness :
  ∃ w' live,
    leave_player 2 7 (table [ana; bob] (match7 STARTED 2))
    = (Return (mkLeaveResponse 2 "bob"), w')
    ∧ ana ∈ query_players_of 7 (db (table [ana; bob] (match7 STARTED 2)))
    ∧ query_players_of 7 (db w') = []
    ∧ EvBroadcast 7 (WINNER 1 FORFEIT) live ∈ trace w'
    ∧ query_player 1 (db w') = None.
Proof.
  apply (forfeit_deletes_the_winner
           (table [ana; bob] (match7 STARTED 2)) 2 7 bob ana
           (match7 STARTED 2) (sockets [ana; bob])).
  - reflexivity.
  - reflexivity.
  - reflexivity.
  - reflexivity.
  - apply perm_swap.
  - simpl. lia.
  - reflexivity.
Defined.

(** ** Leaving a match under way *)




(** ** Turn orders after a removal *)

(** C5, as the code has it.  A leave that does not end the match by forfeit
    removes the row of the departing player and leaves every other row of
    the match as it was, its [turn_order] included: nothing is renumbered. *)
Theorem leave_keeps_turn_orders w player_id id p m conns :
  query_player player_id (db w) = Some p →
  Players.match_id p = Some id →
  matches (db w) !! id = Some m →
  (Matches.state m = WAITING → Players.is_owner p = false) →
  ¬ (Matches.current_players m = 2 ∧ Matches.state m = STARTED) →
  _games (manager w) !! id = Some conns →
  ∃ w',
    leave_player player_id id w
    = (Return (mkLeaveResponse player_id (Players.player_name p)), w')
    ∧ query_players_of id (db w')
      = filter (λ r, Players.id r ≠ player_id) (query_players_of id (db w))
    ∧ Matches.current_players <$> matches (db w') !! id
      = Some (Matches.current_players m - 1).
Proof.
  intros Hp Hin Hm Hlobby Hnf Hg. eexists. split.
  { eapply leave_player_plain; eassumption. }
  split.
  - unfold left_world; cbn [db].
    by rewrite query_players_of_with_match, query_players_of_without.
  - simpl. by rewrite lookup_insert_eq.
Qed.

Lemma leave_keeps_turn_orders_witness :
  ∃ w',
    leave_player 1 7 started3 = (Return (mkLeaveResponse 1 "ana"), w')
    ∧ query_players_of 7 (db w')
      = filter (λ r, Players.id r ≠ 1) (query_players_of 7 (db started3))
    ∧ Matches.current_players <$> matches (db w') !! 7 = Some (3 - 1).
Proof.
  apply (leave_keeps_turn_orders started3 1 7 ana (match7 STARTED 3)
           (sockets [ana; bob; cyd])).
  - reflexivity.
  - reflexivity.
  - reflexivity.
  - simpl. discriminate.
  - simpl. intros [H _]. lia.
  - reflexivity.
Defined.

(** C5, as the claim states it, fails: the seats of [started3] are dense
    (1, 2, 3); after ana (seat 1) leaves, [current_players] is 2 and the
    remaining turn orders are 2 and 3, not 1 and 2. *)
Lemma leave_does_not_renumber :
  dense_turn_orders 7 (db started3)
  ∧ ∃ w',
      leave_player 1 7 started3 = (Return (mkLeaveResponse 1 "ana"), w')
      ∧ Players.turn_order <$> query_players_of 7 (db w') = [Some 2; Some 3]
      ∧ Matches.current_players <$> matches (db w') !! 7 = Some 2
      ∧ ¬ dense_turn_orders 7 (db w').
Proof.
  split.
  { exists (match7 STARTED 3). split; reflexivity. }
  eexists. split; [vm_compute; reflexivity|].
  split; [reflexivity|]. split; [reflexivity|].
  intros (m & Hm & Hperm).
  assert (Some m = Some (match7 STARTED 2)) as [= ->]
    by (rewrite <- Hm; reflexivity).
  assert (Some 3 ∈ Some <$> seqZ 1 2) as Hin.
  { rewrite <- Hperm. right; left. }
  vm_compute in Hin. 
  repeat (apply elem_of_cons in Hin as [Hin|Hin]; [discriminate|]).
  by apply elem_of_nil in Hin.
Qed.

Lemma filter_id_unique (l : list Players.t) p :
  NoDup (Players.id <$> l) → p ∈ l →
  filter (λ r, Players.id r = Players.id p) l = [p].
Proof.
  induction l as [|r l IH]; intros Hnd Hin; [by apply elem_of_nil in Hin|].
  rewrite fmap_cons in Hnd. apply NoDup_cons in Hnd as [Hr Hnd].
  apply elem_of_cons in Hin as [->|Hin].
  - rewrite filter_cons_True by reflexivity. f_equal.
    destruct (filter _ l) as [|x l'] eqn:Hf; [reflexivity|].
    assert (x ∈ x :: l') as Hx by left. rewrite <- Hf in Hx.
    apply list_elem_of_filter in Hx as [Hid Hx].
    exfalso. apply Hr. rewrite <- Hid. by apply list_elem_of_fmap_2.
  - rewrite filter_cons_False; [by apply IH|].
    intros Hid. apply Hr. rewrite Hid. by apply list_elem_of_fmap_2.
Qed.

(** When the seats were dense and the player of the last seat leaves, the
    seats stay dense without any renumbering. *)
Lemma leave_last_seat_stays_dense w player_id id p m conns :
  query_player player_id (db w) = Some p →
  Players.match_id p = Some id →
  matches (db w) !! id = Some m →
  (Matches.state m = WAITING → Players.is_owner p = false) →
  ¬ (Matches.current_players m = 2 ∧ Matches.state m = STARTED) →
  _games (manager w) !! id = Some conns →
  NoDup (Players.id <$> query_players_of id (db w)) →
  dense_turn_orders id (db w) →
  Players.turn_order p = Some (Matches.current_players m) →
  dense_turn_orders id (db (leave_player player_id id w).2).
Proof.
  intros Hp Hin Hm Hlobby Hnf Hg Hnd (m' & Hm' & Hdense) Hlast.
  assert (m' = m) as -> by congruence.
  rewrite (leave_player_plain w player_id id p m conns) by assumption.
  destruct (query_player_Some _ _ _ Hp) as [Hid Hrow]. subst player_id.
  assert (p ∈ query_players_of id (db w)) as Hp'.
  { unfold query_players_of. by apply list_elem_of_filter. }
  exists (decremented m). split; [simpl; apply lookup_insert_eq|].
  unfold left_world; cbn [snd db].
  rewrite query_players_of_with_match, query_players_of_without.
  set (rows := query_players_of id (db w)) in *.
  assert (rows ≡ₚ p :: filter (λ r, Players.id r ≠ Players.id p) rows)
    as Hsplit.
  { rewrite <- (filter_app_complement
                  (λ r, Players.id r = Players.id p) rows) at 1.
    by rewrite filter_id_unique. }
  assert (0 < Matches.current_players m) as Hpos.
  { apply Permutation_length in Hsplit as Hlen.
    apply Permutation_length in Hdense as Hlen'.
    rewrite !length_fmap, length_seqZ, Hlen in Hlen'.
    simpl in Hlen'. lia. }
  rewrite Hsplit, fmap_cons, Hlast in Hdense.
  replace (Matches.current_players m)
    with ((Matches.current_players m - 1) + 1) in Hdense at 2 by lia.
  rewrite seqZ_app in Hdense by lia.
  rewrite (seqZ_cons _ 1), (seqZ_nil _ (Z.pred 1)), fmap_app in Hdense
    by lia.
  replace (1 + (Matches.current_players m - 1))
    with (Matches.current_players m) in Hdense by lia.
  cbn [fmap list_fmap] in Hdense.
  rewrite <- Permutation_cons_append in Hdense.
  by apply Permutation_cons_inv in Hdense.
Qed.

(** ** Owner leaving the lobby *)

(** C7. The owner of a WAITING match with more than one player asks to
    leave: the request fails with the 400 "Owner cannot leave match" and
    the world is the one it started from, rows, player count, registry and
    trace alike. *)
Theorem leave_owner_waiting_rejected w player_id id p m :
  query_player player_id (db w) = Some p →
  Players.match_id p = Some id →
  Players.is_owner p = true →
  matches (db w) !! id = Some m →
  Matches.state m = WAITING →
  Matches.current_players m > 1 →
  leave_player player_id id w
  = (Raise (HTTPException 400 "Owner cannot leave match"), w).
Proof.
  intros Hp Hin Hown Hm Hst _.
  by apply (leave_player_owner_waiting w player_id id p m).
Qed.

Lemma leave_owner_waiting_rejected_witness :
  leave_player 1 7 lobby3
  = (Raise (HTTPException 400 "Owner cannot leave match"), lobby3).
Proof.
  apply (leave_owner_waiting_rejected lobby3 1 7 ana (match7 WAITING 3)).
  - reflexivity.
  - reflexivity.
  - reflexivity.
  - reflexivity.
  - reflexivity.
  - simpl. lia.
Defined.

(** ** The end-turn workflow *)

Lemma run_end_turn_logic w p ref :
  end_turn_logic p ref w = (Raise AttributeError, w).
Proof. reflexivity. Qed.

Lemma run_end_turn w player_id id p m :
  query_player player_id (db w) = Some p →
  matches (db w) !! id = Some m →
  end_turn id player_id w = (Raise AttributeError, w).
Proof.
  intros Hp Hm. unfold end_turn.
  step ltac:(eapply run_try_Return, run_get_player_by_id, Hp).
  step ltac:(eapply run_try_Return, run_get_match_by_id, Hm).
  erewrite run_bind_Raise; [reflexivity|apply run_end_turn_logic].
Qed.


(** C3 does not hold of the code.  Class [Matches] declares no
    [current_player_turn], so [end_turn_logic] raises [AttributeError] where
    it first reads it (line 95), for the turn holder as for anyone, before
    [update_turn] is called: the request of a player of a match ends in
    [AttributeError] with nothing written, and no turn rotates. *)
Theorem end_turn_raises_before_rotating w player_id id p m :
  query_player player_id (db w) = Some p →
  matches (db w) !! id = Some m →
  end_turn_logic p id w = (Raise AttributeError, w)
  ∧ end_turn id player_id w = (Raise AttributeError, w).
Proof.
  intros Hp Hm. split; [apply run_end_turn_logic|by eapply run_end_turn].
Qed.

Lemma end_turn_raises_before_rotating_witness :
  end_turn_logic dee 7 started4 = (Raise AttributeError, started4)
  ∧ end_turn 7 4 started4 = (Raise AttributeError, started4).
Proof.
  apply (end_turn_raises_before_rotating started4 4 7 dee (match7 STARTED 4));
    reflexivity.
Defined.

(** C6 does not hold of the code.  The request of any player of the match
    fails and leaves the world as it was, as the claim says, but what is
    raised is the [AttributeError] of line 95, where
    [match.current_player_turn] is read for the comparison, and not the 403
    of line 96. *)
Theorem end_turn_out_of_turn_raises_AttributeError w player_id id p m :
  query_player player_id (db w) = Some p →
  matches (db w) !! id = Some m →
  (end_turn_logic p id w).1 = Raise AttributeError
  ∧ (end_turn id player_id w).1 = Raise AttributeError
  ∧ (end_turn id player_id w).2 = w
  ∧ AttributeError ≠ not_your_turn p.
Proof.
  intros Hp Hm. rewrite (run_end_turn w player_id id p m) by assumption.
  by split_and!.
Qed.

Lemma end_turn_out_of_turn_raises_AttributeError_witness :
  (end_turn_logic cyd 7 started3).1 = Raise AttributeError
  ∧ (end_turn 7 3 started3).1 = Raise AttributeError
  ∧ (end_turn 7 3 started3).2 = started3
  ∧ AttributeError ≠ not_your_turn cyd.
Proof.
  apply (end_turn_out_of_turn_raises_AttributeError started3 3 7 cyd
           (match7 STARTED 3)); reflexivity.
Defined.

(** ** Order of the end-turn effects *)


(** ** The turn-order validator *)

(** C8, as the code has it.  Assigning a turn order is accepted exactly
    when the value lies in [1, 4] and is rejected with [ValueError]
    otherwise; neither the [max_players] of the match nor the turn orders
    of its other players enter the decision, and an accepted value is
    stored as it is. *)
Theorem validate_turn_order_fixed_range self key t :
  validate_turn_order self key t
  = (if bool_decide (1 ≤ t ≤ 4) then Return t else Raise ValueError)
  ∧ assign_turn_order self t
    = (if bool_decide (1 ≤ t ≤ 4)
       then Return (Players.mk (Players.id self) (Players.player_name self)
                      (Players.is_owner self) (Players.session_token self)
                      (Some t) (Players.match_id self))
       else Raise ValueError).
Proof.
  unfold assign_turn_order, validate_turn_order.
  repeat case_bool_decide; simpl; (split; reflexivity) || lia.
Qed.

(** C8, as the claim states it, fails: bob sits in a match whose
    [max_players] is 2 and is assigned turn order 3, which is accepted;
    ana and bob, rows of the same match, are both assigned turn order 1,
    and both assignments are accepted. *)
Lemma turn_order_beyond_max_players_accepted :
  Players.match_id bob = Some 7
  ∧ Matches.max_players <$> matches (db duo) !! 7 = Some 2
  ∧ validate_turn_order bob "turn_order" 3 = Return 3
  ∧ ¬ (1 ≤ 3 ≤ 2)
  ∧ ∃ a b,
      assign_turn_order ana 1 = Return a
      ∧ assign_turn_order bob 1 = Return b
      ∧ Players.id a ≠ Players.id b
      ∧ Players.match_id a = Players.match_id b
      ∧ Players.turn_order a = Some 1
      ∧ Players.turn_order b = Some 1.
Proof.
  split_and!; try reflexivity; [lia|].
  eexists _, _. split_and!; try reflexivity. simpl. lia.
Qed.

(** ** Anonymous connections *)

Lemma list_remove_None ws l : ws ∉ l → list_remove ws l = None.
Proof.
  induction l as [|y l IH]; intros Hnot; [reflexivity|].
  apply not_elem_of_cons in Hnot as [Hne Hnot]. simpl.
  rewrite bool_decide_eq_false_2 by congruence.
  by rewrite IH.
Qed.

Lemma list_remove_Some_NoDup ws l l' :
  NoDup l → list_remove ws l = Some l' → ws ∉ l'.
Proof.
  revert l'. induction l as [|y l IH]; intros l' Hnd Hrm; [discriminate|].
  apply NoDup_cons in Hnd as [Hy Hnd]. simpl in Hrm.
  case_bool_decide as Hyw.
  - injection Hrm as <-. by subst y.
  - destruct (list_remove ws l) as [l''|] eqn:Hl; [|discriminate].
    injection Hrm as <-. apply not_elem_of_cons. split; [congruence|].
    by apply IH.
Qed.

Lemma run_remove_anonymous_connection ws w :
  remove_anonymous_connection ws w
  = (Return tt,
     match list_remove ws (_connections (manager w)) with
     | Some l => set_manager (mkManager (_games (manager w)) l) w
     | None => w
     end).
Proof.
  unfold remove_anonymous_connection, try_except.
  destruct (list_remove ws (_connections (manager w))); reflexivity.
Qed.

(** C9.  [remove_anonymous_connection] never raises; on a socket that is
    not among the anonymous connections it changes nothing; and, a socket
    being listed at most once, removing it a second time gives the same
    result as removing it once. *)
Theorem remove_anonymous_connection_absent_noop ws w :
  (remove_anonymous_connection ws w).1 = Return tt
  ∧ (ws ∉ _connections (manager w) →
     remove_anonymous_connection ws w = (Return tt, w))
  ∧ (NoDup (_connections (manager w)) →
     (remove_anonymous_connection ws;; remove_anonymous_connection ws) w
     = remove_anonymous_connection ws w).
Proof.
  split_and!.
  - by rewrite run_remove_anonymous_connection.
  - intros Hnot. rewrite run_remove_anonymous_connection.
    by rewrite list_remove_None.
  - intros Hnd. rewrite run_bind, run_remove_anonymous_connection.
    destruct (list_remove ws (_connections (manager w))) as [l|] eqn:Hl.
    + rewrite run_remove_anonymous_connection. simpl.
      rewrite list_remove_None; [reflexivity|].
      by eapply list_remove_Some_NoDup.
    + rewrite run_remove_anonymous_connection. by rewrite Hl.
Qed.

Lemma remove_anonymous_connection_absent_noop_witness :
  (remove_anonymous_connection 5 (lobby_viewers [4; 6])
   = (Return tt, lobby_viewers [4; 6]))
  ∧ ((remove_anonymous_connection 5;; remove_anonymous_connection 5)
       (lobby_viewers [4; 5; 6])
     = remove_anonymous_connection 5 (lobby_viewers [4; 5; 6]))
  ∧ (remove_anonymous_connection 5 (lobby_viewers [4; 5; 6])
     = (Return tt, lobby_viewers [4; 6])).
Proof.
  split_and!.
  - apply (proj1 (proj2 (remove_anonymous_connection_absent_noop 5
                            (lobby_viewers [4; 6])))).
    simpl. intros H. repeat (apply elem_of_cons in H as [H|H]; [lia|]).
    by apply elem_of_nil in H.
  - apply (proj2 (proj2 (remove_anonymous_connection_absent_noop 5
                            (lobby_viewers [4; 5; 6])))).
    simpl. repeat (apply NoDup_cons; split;
      [intros H; repeat (apply elem_of_cons in H as [H|H]; [lia|]);
       by apply elem_of_nil in H|]).
    apply NoDup_nil_2.
  - reflexivity.
Defined.

(** ** The connection manager against [tests/test_connections_manager.py] *)

(** [test_connect_player_to_game_raise_exceptions]. *)
Example connect_needs_an_open_session :
  (connect_player_to_game 1 1 11 fresh_manager).1
  = Raise (GameConnectionDoesNotExist 1)
  ∧ (create_game_connection 1;; connect_player_to_game 1 1 11;;
     connect_player_to_game 1 1 12) fresh_manager
    = (Raise (PlayerAlreadyConnected 1 1),
       exec (create_game_connection 1;; connect_player_to_game 1 1 11)
            fresh_manager).
Proof. split; reflexivity. Qed.

(** [test_disconnect_player_from_game_success]. *)
Example disconnect_removes_one_binding :
  let w := exec (create_game_connection 1;; connect_player_to_game 1 1 11;;
                 connect_player_to_game 1 2 11;;
                 disconnect_player_from_game 1 1) fresh_manager in
  ¬ bound 1 1 (manager w) ∧ bound 1 2 (manager w)
  ∧ ¬ bound 1 2 (manager (exec (disconnect_player_from_game 1 2) w)).
Proof.
  split_and!.
  - intros (conns & ws & Hg & Hc). vm_compute in Hg. injection Hg as <-.
    discriminate Hc.
  - eexists _, _. split; reflexivity.
  - intros (conns & ws & Hg & Hc). vm_compute in Hg. injection Hg as <-.
    discriminate Hc.
Qed.

(** [test_disconnect_player_from_game_raise_exceptions]. *)
Example disconnect_failures :
  (disconnect_player_from_game 1 1 fresh_manager).1
  = Raise (GameConnectionDoesNotExist 1)
  ∧ (create_game_connection 1;; disconnect_player_from_game 1 2)
      fresh_manager
    = (Raise (PlayerNotConnected 1 2),
       exec (create_game_connection 1) fresh_manager).
Proof. split; reflexivity. Qed.

(** [test_broadcast_to_game_raise_exceptions]. *)
Example broadcast_needs_an_open_session :
  broadcast_to_game 1 (PLAYER_LEFT "data") fresh_manager
  = (Raise (GameConnectionDoesNotExist 1), fresh_manager).
Proof. reflexivity. Qed.

(** [test_add_anonymous_connection_remove_anonymous_connection]. *)
Example add_then_remove_twice :
  let w1 := exec (add_anonymous_connection 11) fresh_manager in
  let w2 := exec (remove_anonymous_connection 11) w1 in
  length (_connections (manager w1)) = 1%nat
  ∧ length (_connections (manager w2)) = 0%nat
  ∧ remove_anonymous_connection 11 w2 = (Return tt, w2).
Proof. split_and!; reflexivity. Qed.

(** * Further properties of the handlers *)

(** ** Requests that [leave_player] turns away *)

Lemma run_get_player_by_id_missing w player_id :
  query_player player_id (db w) = None →
  get_player_by_id player_id w = (Raise ValueError, w).
Proof. intros H. unfold get_player_by_id. by rewrite H. Qed.

Lemma run_get_match_by_id_missing w id :
  matches (db w) !! id = None →
  get_match_by_id id w = (Raise NoResultFound, w).
Proof. intros H. unfold get_match_by_id. by rewrite H. Qed.

Lemma run_getattr_missing {A} (f : Matches.t → A) w ref :
  matches (db w) !! ref = None →
  getattr f ref w = (Raise ObjectDeletedError, w).
Proof. intros H. unfold getattr. by rewrite H. Qed.

(** X1. A leave for a player id that has no row fails with the 404 "Player
    not found with id: N" and changes nothing, whether or not the match
    exists: the player is looked up first. *)
Theorem leave_player_unknown_player w player_id id :
  query_player player_id (db w) = None →
  leave_player player_id id w = (Raise (player_not_found player_id), w).
Proof.
  intros Hp. unfold leave_player.
  erewrite run_try_Raise; cycle 1.
  { erewrite run_bind_Raise; [reflexivity|].
    erewrite run_try_Raise by (eapply run_get_player_by_id_missing, Hp).
    reflexivity. }
  reflexivity.
Qed.

Lemma leave_player_unknown_player_witness :
  leave_player 9 7 started3
  = (Raise (HTTPException 404 "Player not found with id: 9"), started3).
Proof. apply (leave_player_unknown_player started3 9 7). reflexivity. Defined.

(** X2. A leave that names a match without a row, or a match the player
    does not belong to, fails with a 404 ("Match not found", "Player not in
    match") and changes nothing; the match is looked up before the
    membership is compared. *)
Theorem leave_player_wrong_match w player_id id p :
  query_player player_id (db w) = Some p →
  matches (db w) !! id = None ∨ Players.match_id p ≠ Some id →
  leave_player player_id id w
  = (Raise (HTTPException 404
              (if matches (db w) !! id is Some _
               then "Player not in match" else "Match not found")), w).
Proof.
  intros Hp Hbad. unfold leave_player.
  destruct (matches (db w) !! id) as [m|] eqn:Hm.
  - destruct Hbad as [?|Hne]; [discriminate|].
    erewrite run_try_Raise; cycle 1.
    { step ltac:(eapply run_try_Return, run_get_player_by_id, Hp).
      step ltac:(eapply run_get_match_by_id, Hm).
      cbn zeta. rewrite bool_decide_eq_true_2 by exact Hne. reflexivity. }
    reflexivity.
  - erewrite run_try_Raise; cycle 1.
    { step ltac:(eapply run_try_Return, run_get_player_by_id, Hp).
      erewrite run_bind_Raise; [reflexivity|].
      eapply run_get_match_by_id_missing, Hm. }
    reflexivity.
Qed.

Lemma leave_player_wrong_match_witness :
  leave_player 2 8 started3
  = (Raise (HTTPException 404 "Match not found"), started3)
  ∧ leave_player 2 7 (table [ana; Players.mk 2 "bob" false "t" (Some 2) None]
                        (match7 STARTED 2))
    = (Raise (HTTPException 404 "Player not in match"),
       table [ana; Players.mk 2 "bob" false "t" (Some 2) None]
         (match7 STARTED 2)).
Proof.
  split.
  - apply (leave_player_wrong_match started3 2 8 bob); [reflexivity|].
    left. reflexivity.
  - apply (leave_player_wrong_match
             (table [ana; Players.mk 2 "bob" false "t" (Some 2) None]
                (match7 STARTED 2)) 2 7
             (Players.mk 2 "bob" false "t" (Some 2) None)); [reflexivity|].
    right. discriminate.
Defined.

(** X3. When the match has no open session in the connection manager, the
    leave fails with the 404 "Match not found" only after the row of the
    player has been deleted: the row is gone, while [current_players] is
    not lowered and nothing is broadcast. *)
Theorem leave_player_without_session w player_id id p m :
  query_player player_id (db w) = Some p →
  matches (db w) !! id = Some m →
  Players.match_id p = Some id →
  (Matches.state m = WAITING → Players.is_owner p = false) →
  _games (manager w) !! id = None →
  leave_player player_id id w
  = (Raise (HTTPException 404 "Match not found"),
     set_db (without_player player_id (db w)) w).
Proof.
  intros Hp Hm Hin Hlobby Hg. unfold leave_player.
  erewrite run_try_Raise; cycle 1.
  { step ltac:(eapply run_try_Return, run_get_player_by_id, Hp).
    step ltac:(eapply run_get_match_by_id, Hm).
    cbn zeta. rewrite Hin, bool_decide_eq_false_2 by (intros ?; congruence).
    step ltac:(reflexivity).
    step ltac:(eapply run_getattr, Hm).
    erewrite (run_bind_Return _ _ _ tt w).
    2:{ case_bool_decide; [|reflexivity]. rewrite Hlobby by assumption.
        reflexivity. }
    step ltac:(eapply run_get_match_by_id, Hm).
    step ltac:(eapply run_delete_player, Hp).
    erewrite run_bind_Raise; [reflexivity|].
    unfold try_except, disconnect_player_from_game. simpl. rewrite Hg.
    reflexivity. }
  reflexivity.
Qed.

Lemma leave_player_without_session_witness :
  leave_player 2 7
    (mkWorld (db started3) (mkManager ∅ []) ∅ [])
  = (Raise (HTTPException 404 "Match not found"),
     mkWorld (mkSession {[7 := match7 STARTED 3]} [ana; cyd])
       (mkManager ∅ []) ∅ []).
Proof.
  apply (leave_player_without_session
           (mkWorld (db started3) (mkManager ∅ []) ∅ []) 2 7 bob
           (match7 STARTED 3)).
  - reflexivity.
  - reflexivity.
  - reflexivity.
  - discriminate.
  - reflexivity.
Defined.

(** X4. With the player in the match, the session open and no forfeit at
    stake, the leave is refused exactly when the match is WAITING and the
    player is its owner; in every other case, the owner of a STARTED or
    FINISHED match included, it succeeds. *)
Theorem leave_player_owner_guard w player_id id p m conns :
  query_player player_id (db w) = Some p →
  matches (db w) !! id = Some m →
  Players.match_id p = Some id →
  _games (manager w) !! id = Some conns →
  ¬ (Matches.current_players m = 2 ∧ Matches.state m = STARTED) →
  leave_player player_id id w
  = if bool_decide (Matches.state m = WAITING) && Players.is_owner p
    then (Raise (HTTPException 400 "Owner cannot leave match"), w)
    else (Return (mkLeaveResponse player_id (Players.player_name p)),
          left_world player_id id p m conns w).
Proof.
  intros Hp Hm Hin Hg Hnf.
  case_bool_decide as Hst; simpl.
  - destruct (Players.is_owner p) eqn:Hown.
    + by apply (leave_player_owner_waiting w player_id id p m).
    + by apply leave_player_plain.
  - apply leave_player_plain; try done.
Qed.

Lemma leave_player_owner_guard_witness :
  leave_player 1 7 started3
  = (Return (mkLeaveResponse 1 "ana"),
     left_world 1 7 ana (match7 STARTED 3) (sockets [ana; bob; cyd])
       started3).
Proof.
  apply (leave_player_owner_guard started3 1 7 ana (match7 STARTED 3)
           (sockets [ana; bob; cyd])).
  - reflexivity.
  - reflexivity.
  - reflexivity.
  - reflexivity.
  - simpl. intros [H _]. lia.
Defined.

(** ** Leaves that go through *)

(** X5. The last player of a STARTED match leaves: the request succeeds,
    the match stays STARTED with [current_players = 0], and [PLAYER_LEFT]
    is the only broadcast; the forfeit, hence FINISHED, is reached only
    from two players. *)
Theorem leave_last_player_keeps_match_started w player_id id p m conns :
  query_player player_id (db w) = Some p →
  matches (db w) !! id = Some m →
  Players.match_id p = Some id →
  _games (manager w) !! id = Some conns →
  Matches.state m = STARTED →
  Matches.current_players m = 1 →
  ∃ w' live,
    leave_player player_id id w
    = (Return (mkLeaveResponse player_id (Players.player_name p)), w')
    ∧ Matches.state <$> matches (db w') !! id = Some STARTED
    ∧ Matches.current_players <$> matches (db w') !! id = Some 0
    ∧ trace w'
      = trace w ++ [EvBroadcast id (PLAYER_LEFT (Players.player_name p)) live].
Proof.
  intros Hp Hm Hin Hg Hst Hn. eexists _, _. split.
  { apply (leave_player_plain w player_id id p m conns); try done.
    - intros; congruence.
    - intros [? _]. lia. }
  simpl. rewrite !lookup_insert_eq. simpl. by rewrite Hst, Hn.
Qed.

Lemma leave_last_player_keeps_match_started_witness :
  ∃ w' live,
    leave_player 1 7 (table [ana] (match7 STARTED 1))
    = (Return (mkLeaveResponse 1 "ana"), w')
    ∧ Matches.state <$> matches (db w') !! 7 = Some STARTED
    ∧ Matches.current_players <$> matches (db w') !! 7 = Some 0
    ∧ trace w' = [] ++ [EvBroadcast 7 (PLAYER_LEFT "ana") live].
Proof.
  apply (leave_last_player_keeps_match_started
           (table [ana] (match7 STARTED 1)) 1 7 ana (match7 STARTED 1)
           (sockets [ana])); reflexivity.
Defined.

(** X6. Neither a player without a socket nor closed sockets stop a leave:
    when the player is not bound the registry is left as it was, and
    whatever sockets are closed the response, the store and the registry
    come out the same. *)
Theorem leave_player_tolerates_transport w player_id id p m conns c :
  query_player player_id (db w) = Some p →
  matches (db w) !! id = Some m →
  Players.match_id p = Some id →
  (Matches.state m = WAITING → Players.is_owner p = false) →
  _games (manager w) !! id = Some conns →
  ¬ (Matches.current_players m = 2 ∧ Matches.state m = STARTED) →
  (leave_player player_id id (reclosed c w)).1
  = (leave_player player_id id w).1
  ∧ db (leave_player player_id id (reclosed c w)).2
    = db (leave_player player_id id w).2
  ∧ manager (leave_player player_id id (reclosed c w)).2
    = manager (leave_player player_id id w).2
  ∧ (conns !! player_id = None →
     manager (leave_player player_id id w).2 = manager w).
Proof.
  intros Hp Hm Hin Hlobby Hg Hnf.
  rewrite (leave_player_plain w player_id id p m conns) by assumption.
  rewrite (leave_player_plain (reclosed c w) player_id id p m conns)
    by assumption.
  split_and!; try reflexivity.
  intros Hc. simpl. by apply unbound_absent.
Qed.

Lemma leave_player_tolerates_transport_witness :
  (leave_player 2 7 (reclosed {[101; 103]} started3)).1
  = (leave_player 2 7 started3).1
  ∧ db (leave_player 2 7 (reclosed {[101; 103]} started3)).2
    = db (leave_player 2 7 started3).2
  ∧ manager (leave_player 2 7 (reclosed {[101; 103]} started3)).2
    = manager (leave_player 2 7 started3).2
  ∧ (sockets [ana; bob; cyd] !! 2 = None →
     manager (leave_player 2 7 started3).2 = manager started3).
Proof.
  apply (leave_player_tolerates_transport started3 2 7 bob
           (match7 STARTED 3) (sockets [ana; bob; cyd]) {[101; 103]}).
  - reflexivity.
  - reflexivity.
  - reflexivity.
  - discriminate.
  - reflexivity.
  - simpl. intros [H _]. lia.
Defined.

(** ** The winner path *)

(** X7. [playerWinner] takes the first player returned for the match,
    whoever else is left: it deletes that row alone, writes FINISHED and
    [current_players = 0] however many rows remain, keeps the registry,
    and broadcasts [WINNER] with that id and the reason it was given. *)
Theorem playerWinner_first_row_wins w id reason q rest m conns :
  query_players_of id (db w) = q :: rest →
  matches (db w) !! id = Some m →
  _games (manager w) !! id = Some conns →
  ∃ w',
    playerWinner id reason w = (Return tt, w')
    ∧ players (db w')
      = filter (λ r, Players.id r ≠ Players.id q) (players (db w))
    ∧ matches (db w') = <[id := finished m]> (matches (db w))
    ∧ manager w' = manager w
    ∧ trace w'
      = trace w ++ [EvBroadcast id (WINNER (Players.id q) reason)
                      (live_sockets (closed w) conns)].
Proof.
  intros Hq Hm Hg. eexists. split.
  { eapply run_playerWinner; eassumption. }
  split_and!; reflexivity.
Qed.

Lemma playerWinner_first_row_wins_witness :
  ∃ w',
    playerWinner 7 NORMAL started3 = (Return tt, w')
    ∧ players (db w')
      = filter (λ r, Players.id r ≠ 1) [ana; bob; cyd]
    ∧ matches (db w')
      = <[7 := finished (match7 STARTED 3)]> (matches (db started3))
    ∧ manager w' = manager started3
    ∧ trace w'
      = [] ++ [EvBroadcast 7 (WINNER 1 NORMAL)
                 (live_sockets ∅ (sockets [ana; bob; cyd]))].
Proof.
  apply (playerWinner_first_row_wins started3 7 NORMAL ana [bob; cyd]
           (match7 STARTED 3) (sockets [ana; bob; cyd])); reflexivity.
Defined.

(** X8. When no row is left for the match, [playerWinner] raises
    [IndexError] before it writes anything; reached from a leave (the
    match said two players, yet the departing one had the only row) the
    error passes through all three [except] clauses, after the row has
    been deleted, the count lowered to 1 and [PLAYER_LEFT] broadcast. *)
Theorem leave_forfeit_without_survivor w player_id id p m conns :
  query_player player_id (db w) = Some p →
  matches (db w) !! id = Some m →
  Players.match_id p = Some id →
  _games (manager w) !! id = Some conns →
  Matches.current_players m = 2 →
  Matches.state m = STARTED →
  query_players_of id (without_player player_id (db w)) = [] →
  playerWinner id FORFEIT (left_world player_id id p m conns w)
  = (Raise IndexError, left_world player_id id p m conns w)
  ∧ leave_player player_id id w
    = (Raise IndexError, left_world player_id id p m conns w).
Proof.
  intros Hp Hm Hin Hg Hn Hst Hrows.
  assert (playerWinner id FORFEIT (left_world player_id id p m conns w)
          = (Raise IndexError, left_world player_id id p m conns w)) as Hwin.
  { unfold playerWinner. step ltac:(reflexivity). cbn beta.
    change (query_players_of id (db (left_world player_id id p m conns w)))
      with (query_players_of id (without_player player_id (db w))).
    rewrite Hrows. reflexivity. }
  split; [exact Hwin|].
  rewrite (leave_player_reaches_check w player_id id p m conns);
    [|assumption|assumption|assumption|intros; congruence|assumption].
  rewrite Hn, Hst. simpl when_.
  erewrite run_try_Raise; cycle 1.
  { erewrite run_bind_Raise; [reflexivity|exact Hwin]. }
  reflexivity.
Qed.

Lemma leave_forfeit_without_survivor_witness :
  playerWinner 7 FORFEIT
    (left_world 2 7 bob (match7 STARTED 2) (sockets [bob])
       (table [bob] (match7 STARTED 2)))
  = (Raise IndexError,
     left_world 2 7 bob (match7 STARTED 2) (sockets [bob])
       (table [bob] (match7 STARTED 2)))
  ∧ leave_player 2 7 (table [bob] (match7 STARTED 2))
    = (Raise IndexError,
       left_world 2 7 bob (match7 STARTED 2) (sockets [bob])
         (table [bob] (match7 STARTED 2))).
Proof.
  apply (leave_forfeit_without_survivor (table [bob] (match7 STARTED 2))
           2 7 bob (match7 STARTED 2) (sockets [bob])); reflexivity.
Defined.

(** ** The player count *)

Lemma rows_split (rows : list Players.t) p :
  NoDup (Players.id <$> rows) → p ∈ rows →
  rows ≡ₚ p :: filter (λ r, Players.id r ≠ Players.id p) rows.
Proof.
  intros Hnd Hin.
  rewrite <- (filter_app_complement
                (λ r, Players.id r = Players.id p) rows) at 1.
  by rewrite filter_id_unique.
Qed.

(** X9. Every leave that goes through keeps [current_players] equal to the
    number of rows of the match, the rows of a match having distinct ids:
    an ordinary leave removes one row and lowers the count by one, and the
    forfeit removes the two rows that are left and writes 0. *)
Theorem leave_preserves_player_count w player_id id p m conns :
  query_player player_id (db w) = Some p →
  matches (db w) !! id = Some m →
  Players.match_id p = Some id →
  (Matches.state m = WAITING → Players.is_owner p = false) →
  _games (manager w) !! id = Some conns →
  NoDup (Players.id <$> query_players_of id (db w)) →
  counts_its_rows id (db w) →
  ∃ w',
    leave_player player_id id w
    = (Return (mkLeaveResponse player_id (Players.player_name p)), w')
    ∧ counts_its_rows id (db w').
Proof.
  intros Hp Hm Hin Hlobby Hg Hnd (m' & Hm' & Hcount).
  assert (m' = m) as -> by congruence.
  destruct (query_player_Some _ _ _ Hp) as [Hid Hrow]. subst player_id.
  assert (p ∈ query_players_of id (db w)) as Hp'.
  { unfold query_players_of. by apply list_elem_of_filter. }
  pose proof (rows_split _ _ Hnd Hp') as Hsplit.
  apply Permutation_length in Hsplit as Hlen. simpl in Hlen.
  rewrite <- query_players_of_without in Hlen.
  destruct (decide (Matches.current_players m = 2
                    ∧ Matches.state m = STARTED)) as [[Hn Hst]|Hnf].
  - destruct (query_players_of id (without_player (Players.id p) (db w)))
      as [|q [|q' rest]] eqn:Hrest; simpl in Hlen; try lia.
    eexists. split.
    { eapply leave_player_forfeit; eassumption. }
    exists (finished m). split; [simpl; apply lookup_insert_eq|].
    unfold won_world, left_world; cbn [db].
    rewrite query_players_of_with_match, query_players_of_without.
    rewrite query_players_of_with_match, Hrest.
    rewrite filter_cons_False by (intros H; by apply H). reflexivity.
  - eexists. split.
    { eapply leave_player_plain; eassumption. }
    exists (decremented m). split; [simpl; apply lookup_insert_eq|].
    unfold left_world; cbn [db].
    rewrite query_players_of_with_match. simpl. lia.
Qed.

Lemma leave_preserves_player_count_witness :
  ∃ w',
    leave_player 2 7 started3 = (Return (mkLeaveResponse 2 "bob"), w')
    ∧ counts_its_rows 7 (db w').
Proof.
  apply (leave_preserves_player_count started3 2 7 bob (match7 STARTED 3)
           (sockets [ana; bob; cyd])).
  - reflexivity.
  - reflexivity.
  - reflexivity.
  - discriminate.
  - reflexivity.
  - simpl. repeat (apply NoDup_cons; split;
      [intros H; repeat (apply elem_of_cons in H as [H|H]; [lia|]);
       by apply elem_of_nil in H|]).
    apply NoDup_nil_2.
  - exists (match7 STARTED 3). split; reflexivity.
Defined.

(** ** What a leave never touches *)

Section Frame.
Context (R : World → World → Prop) `{!PreOrder R}.
Context (id : Z).

Lemma keeps_pure {A} (m : M A) : (∀ w, (m w).2 = w) → keeps R m.
Proof. intros H w. by rewrite H. Qed.

Lemma keeps_bind {A B} (m : M A) (k : A → M B) :
  keeps R m → (∀ a, keeps R (k a)) → keeps R (m ≫= k).
Proof.
  intros Hm Hk w. rewrite run_bind. specialize (Hm w).
  destruct (m w) as [[e|a] w1]; simpl in *; [exact Hm|].
  etrans; [exact Hm|apply Hk].
Qed.

Lemma keeps_try_except {A} (m : M A) h :
  keeps R m → (∀ e k, h e = Some k → keeps R k) →
  keeps R (try_except m h).
Proof.
  intros Hm Hh w. unfold try_except. specialize (Hm w).
  destruct (m w) as [[e|a] w1]; simpl in *; [|exact Hm].
  destruct (h e) as [k|] eqn:He; [|exact Hm].
  etrans; [exact Hm|by eapply Hh].
Qed.

Lemma keeps_raise {A} e : keeps R (raise (A:=A) e).
Proof. by apply keeps_pure. Qed.

Lemma keeps_mret {A} (a : A) : keeps R (mret a).
Proof. by apply keeps_pure. Qed.

Lemma keeps_when_ b m : keeps R m → keeps R (when_ b m).
Proof. destruct b; [done|intros _; apply keeps_mret]. Qed.

Lemma keeps_getattr {A} (f : Matches.t → A) ref : keeps R (getattr f ref).
Proof.
  apply keeps_pure. intros w. unfold getattr. by destruct (_ !! ref).
Qed.

Lemma keeps_get_match_by_id i : keeps R (get_match_by_id i).
Proof.
  apply keeps_pure. intros w. unfold get_match_by_id.
  by destruct (_ !! i).
Qed.

Lemma keeps_get_player_by_id i : keeps R (get_player_by_id i).
Proof.
  apply keeps_pure. intros w. unfold get_player_by_id.
  by destruct (query_player i (db w)).
Qed.

Hypothesis keeps_delete_player : ∀ i, keeps R (delete_player i).
Hypothesis keeps_disconnect :
  ∀ i, keeps R (disconnect_player_from_game id i).
Hypothesis keeps_update_match : ∀ st n, keeps R (update_match id st n).
Hypothesis keeps_broadcast_left :
  ∀ name, keeps R (broadcast_to_game id (PLAYER_LEFT name)).
Hypothesis keeps_broadcast_forfeit :
  ∀ q, keeps R (broadcast_to_game id (WINNER q FORFEIT)).

Lemma keeps_tolerant (m : M unit) h :
  keeps R m → (∀ e k, h e = Some k → k = mret tt) →
  keeps R (try_except m h).
Proof.
  intros Hm Hh. apply keeps_try_except; [done|].
  intros e k He. rewrite (Hh e k He). apply keeps_mret.
Qed.

Lemma keeps_playerWinner_forfeit : keeps R (playerWinner id FORFEIT).
Proof.
  unfold playerWinner.
  apply keeps_bind; [by apply keeps_pure|]. intros found.
  apply keeps_bind.
  { destruct found; [apply keeps_raise|apply keeps_mret]. }
  intros q. apply keeps_bind; [apply keeps_delete_player|]. intros _.
  apply keeps_bind; [apply keeps_update_match|]. intros _.
  apply keeps_tolerant; [apply keeps_broadcast_forfeit|].
  intros [] k [= <-]; reflexivity.
Qed.

Lemma keeps_leave_player player_id : keeps R (leave_player player_id id).
Proof.
  unfold leave_player. apply keeps_try_except.
  2:{ intros [] k [= <-]; apply keeps_raise. }
  apply keeps_bind.
  { apply keeps_try_except; [apply keeps_get_player_by_id|].
    intros [] k [= <-]; apply keeps_raise. }
  intros p. apply keeps_bind; [apply keeps_get_match_by_id|]. intros ref.
  cbn zeta. apply keeps_bind; [apply keeps_when_, keeps_raise|]. intros _.
  apply keeps_bind; [apply keeps_getattr|]. intros st.
  apply keeps_bind; [apply keeps_when_, keeps_when_, keeps_raise|].
  intros _. apply keeps_bind; [apply keeps_get_match_by_id|]. intros ref'.
  apply keeps_bind; [apply keeps_delete_player|]. intros _.
  apply keeps_bind.
  { apply keeps_tolerant; [apply keeps_disconnect|].
    intros [] k [= <-]; reflexivity. }
  intros _. apply keeps_bind; [apply keeps_getattr|]. intros st'.
  apply keeps_bind; [apply keeps_getattr|]. intros n.
  apply keeps_bind; [apply keeps_update_match|]. intros _.
  apply keeps_bind.
  { apply keeps_tolerant; [apply keeps_broadcast_left|].
    intros [] k [= <-]; reflexivity. }
  intros _. apply keeps_bind; [apply keeps_getattr|]. intros n'.
  apply keeps_bind; [apply keeps_getattr|]. intros st''.
  apply keeps_bind; [apply keeps_when_, keeps_playerWinner_forfeit|].
  intros _. apply keeps_mret.
Qed.
End Frame.

#[local] Instance store_kept_preorder id : PreOrder (store_kept id).
Proof.
  split.
  - intros w. by split_and!.
  - intros w1 w2 w3 (Ha & Hb & Hc) (Ha' & Hb' & Hc'). split_and!.
    + intros id' Hne. by rewrite Ha', Ha.
    + by rewrite Hb', Hb.
    + by etrans.
Qed.

#[local] Instance registry_kept_preorder id : PreOrder (registry_kept id).
Proof.
  split.
  - intros w. split_and!; try done. unfold bindings_shrink.
    by destruct (_ !! id).
  - intros w1 w2 w3 (Ha & Hb & Hc & Hd) (Ha' & Hb' & Hc' & Hd').
    split_and!.
    + by rewrite Ha', Ha.
    + by rewrite Hb', Hb.
    + intros g Hne. by rewrite Hc', Hc.
    + unfold bindings_shrink in *.
      destruct (_games (manager w1) !! id), (_games (manager w2) !! id),
        (_games (manager w3) !! id); try done. by etrans.
Qed.

#[local] Instance trace_kept_preorder id : PreOrder (trace_kept id).
Proof.
  split.
  - intros w. exists []. split; [by rewrite app_nil_r|constructor].
  - intros w1 w2 w3 (e1 & H1 & F1) (e2 & H2 & F2). exists (e1 ++ e2).
    split; [by rewrite H2, H1, app_assoc|by apply Forall_app].
Qed.

Lemma store_kept_delete_player id i :
  keeps (store_kept id) (delete_player i).
Proof.
  intros w. unfold delete_player.
  destruct (query_player i (db w)); [|reflexivity].
  split_and!; try done. simpl. apply sublist_filter.
Qed.

Lemma store_kept_update_match id st n :
  keeps (store_kept id) (update_match id st n).
Proof.
  intros w. unfold update_match.
  destruct (matches (db w) !! id) as [m|] eqn:Hm; [|reflexivity].
  split_and!; simpl.
  - intros id' Hne. by rewrite lookup_insert_ne.
  - by rewrite lookup_insert_eq, Hm.
  - done.
Qed.

Lemma db_broadcast_to_game id msg w :
  db (broadcast_to_game id msg w).2 = db w.
Proof.
  unfold broadcast_to_game. destruct (_games (manager w) !! id); [|reflexivity].
  case_bool_decide; reflexivity.
Qed.

Lemma db_disconnect_player_from_game id i w :
  db (disconnect_player_from_game id i w).2 = db w.
Proof.
  unfold disconnect_player_from_game.
  destruct (_ !! id) as [conns|]; [|done]. by destruct (conns !! i).
Qed.

Lemma store_kept_same_db id w w' : db w' = db w → store_kept id w w'.
Proof. intros H. unfold store_kept. by rewrite H. Qed.

(** X10. Whatever the ids and whatever the outcome, a leave on match [id]
    leaves every other match as it was, keeps the row of the match with
    its name, visibility and [max_players], and neither adds nor rewrites
    a player row: the rows afterwards are the old ones with some
    removed. *)
Theorem leave_player_store_footprint w player_id id :
  store_kept id w (leave_player player_id id w).2.
Proof.
  apply keeps_leave_player; try apply _.
  - apply store_kept_delete_player.
  - intros i w'. apply store_kept_same_db, db_disconnect_player_from_game.
  - apply store_kept_update_match.
  - intros name w'. apply store_kept_same_db, db_broadcast_to_game.
  - intros q w'. apply store_kept_same_db, db_broadcast_to_game.
Qed.

Lemma registry_kept_same id w w' :
  manager w' = manager w → closed w' = closed w → registry_kept id w w'.
Proof.
  intros Hm Hc. unfold registry_kept, bindings_shrink. rewrite Hm, Hc.
  split_and!; try done. by destruct (_ !! id).
Qed.

Lemma registry_kept_broadcast id msg :
  keeps (registry_kept id) (broadcast_to_game id msg).
Proof.
  intros w. apply registry_kept_same; unfold broadcast_to_game;
    (destruct (_ !! id); [case_bool_decide|]); reflexivity.
Qed.

Lemma registry_kept_disconnect id i :
  keeps (registry_kept id) (disconnect_player_from_game id i).
Proof.
  intros w. unfold disconnect_player_from_game.
  destruct (_games (manager w) !! id) as [conns|] eqn:Hg; [|reflexivity].
  destruct (conns !! i); [|reflexivity].
  split_and!; simpl; try done.
  - intros g Hne. by rewrite lookup_insert_ne.
  - unfold bindings_shrink; simpl. rewrite Hg, lookup_insert_eq.
    apply delete_subseteq.
Qed.

(** X11. Whatever the ids and whatever the outcome, a leave on match [id]
    opens no session and closes none, binds no socket (the bindings of the
    match afterwards are among the old ones), and leaves the sessions of
    the other matches, the anonymous connections and the closed sockets
    as they were. *)
Theorem leave_player_registry_footprint w player_id id :
  registry_kept id w (leave_player player_id id w).2.
Proof.
  apply keeps_leave_player; try apply _.
  - intros i w'. apply registry_kept_same; unfold delete_player;
      by destruct (query_player i (db w')).
  - apply registry_kept_disconnect.
  - intros st n w'. apply registry_kept_same; unfold update_match;
      by destruct (_ !! id).
  - intros name. apply registry_kept_broadcast.
  - intros q. apply registry_kept_broadcast.
Qed.

Lemma trace_kept_same id w w' : trace w' = trace w → trace_kept id w w'.
Proof. intros H. exists []. split; [by rewrite app_nil_r|constructor]. Qed.

Lemma trace_kept_broadcast id msg :
  is_leave_event id (EvBroadcast id msg []) = true →
  keeps (trace_kept id) (broadcast_to_game id msg).
Proof.
  intros Hmsg w. unfold broadcast_to_game.
  destruct (_ !! id) as [conns|]; [|by apply trace_kept_same].
  exists [EvBroadcast id msg (live_sockets (closed w) conns)].
  split; [by case_bool_decide|]. constructor; [|constructor].
  by destruct msg as [|? []|].
Qed.

(** X12. Whatever the ids and whatever the outcome, what a leave on match
    [id] adds to the trace are broadcasts of [PLAYER_LEFT] or of [WINNER]
    with the forfeit reason, all addressed to that match: no other
    match is written to, no turn message is sent and no card collaborator
    is called. *)
Theorem leave_player_trace_footprint w player_id id :
  trace_kept id w (leave_player player_id id w).2.
Proof.
  apply keeps_leave_player; try apply _.
  - intros i w'. apply trace_kept_same; unfold delete_player;
      by destruct (query_player i (db w')).
  - intros i w'. apply trace_kept_same; unfold disconnect_player_from_game.
    destruct (_ !! id) as [conns|]; [|done]. by destruct (conns !! i).
  - intros st n w'. apply trace_kept_same; unfold update_match;
      by destruct (_ !! id).
  - intros name. apply trace_kept_broadcast. simpl.
    by apply bool_decide_eq_true_2.
  - intros q. apply trace_kept_broadcast. simpl.
    by apply bool_decide_eq_true_2.
Qed.

(** ** Requests that [end_turn] turns away *)

(** X13. An end-turn for a player id without a row, or else for a match
    without a row, fails with a 404 ("Player not found", "Match not
    found") and changes nothing; the player is looked up first. *)
Theorem end_turn_unknown_player_or_match w id player_id :
  query_player player_id (db w) = None ∨ matches (db w) !! id = None →
  end_turn id player_id w
  = (Raise (HTTPException 404
              (if query_player player_id (db w) is Some _
               then "Match not found" else "Player not found")), w).
Proof.
  intros Hbad. unfold end_turn.
  destruct (query_player player_id (db w)) as [p|] eqn:Hp.
  - destruct Hbad as [?|Hm]; [discriminate|].
    step ltac:(eapply run_try_Return, run_get_player_by_id, Hp).
    erewrite run_bind_Raise; [reflexivity|].
    erewrite run_try_Raise by (eapply run_get_match_by_id_missing, Hm).
    reflexivity.
  - erewrite run_bind_Raise; [reflexivity|].
    erewrite run_try_Raise by (eapply run_get_player_by_id_missing, Hp).
    reflexivity.
Qed.

Lemma end_turn_unknown_player_or_match_witness :
  end_turn 8 9 started3
  = (Raise (HTTPException 404 "Player not found"), started3)
  ∧ end_turn 8 2 started3
    = (Raise (HTTPException 404 "Match not found"), started3).
Proof.
  split.
  - apply (end_turn_unknown_player_or_match started3 8 9). by left.
  - apply (end_turn_unknown_player_or_match started3 8 2). by right.
Defined.

(** * The validators of [app/models/models.py] *)

(** X21. [Matches.validate_state] returns the string it is given when and
    only when that string is the value of a member of [MatchState], and
    then of exactly one member; every other string, whatever its case,
    raises [ValueError].  The state column therefore always reads back as
    one member of the enumeration. *)
Theorem validate_state_decodes self key s :
  match validate_state self key s with
  | Return s' =>
      s' = s
      ∧ ∃ st, MatchState_value st = s
              ∧ ∀ st', MatchState_value st' = s → st' = st
  | Raise e => e = ValueError ∧ ∀ st, MatchState_value st ≠ s
  end.
Proof.
  unfold validate_state. case_bool_decide as Hin.
  - split; [reflexivity|]. intros st Hst. apply Hin. subst s.
    destruct st; simpl; set_solver.
  - split; [reflexivity|].
    apply list_elem_of_fmap in Hin as (st & -> & _).
    exists st. split; [reflexivity|].
    intros st' Heq. by destruct st, st'.
Qed.

(** X22. [ShapeCards.validate_shape] accepts exactly the integers from 1 to
    18: the values of [Shapes] have no gap and no repetition, so every
    accepted [shape_type] names one shape and each shape has its own. *)
Theorem validate_shape_range self key n :
  ShapeCards.validate_shape self key n
  = (if bool_decide (1 ≤ n ≤ 18) then Return n else Raise ValueError)
  ∧ Shapes.value <$> Shapes.members = seqZ 1 18
  ∧ ∀ s s', Shapes.value s = Shapes.value s' → s = s'.
Proof.
  assert (Shapes.value <$> Shapes.members = seqZ 1 18) as Hvals
    by reflexivity.
  split_and!; [|exact Hvals|].
  - unfold ShapeCards.validate_shape. rewrite Hvals.
    repeat case_bool_decide; try reflexivity; exfalso.
    + match goal with H : _ ∉ _ |- _ => apply H end.
      apply elem_of_seqZ. lia.
    + match goal with H : _ ∈ seqZ _ _ |- _ =>
        apply elem_of_seqZ in H end. lia.
  - intros s s' H. destruct s; destruct s'; (reflexivity || discriminate H).
Qed.

(** [MovementCards.validate_movement] returns the string it is given
    when and only when it is the value of a member of [Movements], and then
    of exactly one; it goes by the values, so a member's name such as
    [LINE] is rejected while its value [Line] passes. *)
Lemma validate_movement_decodes self key s :
  match MovementCards.validate_movement self key s with
  | Return s' =>
      s' = s
      ∧ ∃ mv, Movements.value mv = s
              ∧ ∀ mv', Movements.value mv' = s → mv' = mv
  | Raise e => e = ValueError ∧ ∀ mv, Movements.value mv ≠ s
  end.
Proof.
  unfold MovementCards.validate_movement. case_bool_decide as Hin.
  - split; [reflexivity|]. intros mv Hmv. apply Hin. subst s.
    destruct mv; simpl; set_solver.
  - split; [reflexivity|].
    apply list_elem_of_fmap in Hin as (mv & -> & _).
    exists mv. split; [reflexivity|].
    intros mv' Heq. destruct mv, mv'; (reflexivity || discriminate Heq).
Qed.

Lemma validate_ban_color_Return self key c c' :
  Boards.validate_ban_color self key c = Return c' →
  c' = c ∧ c ∈ Colors.value <$> Colors.members.
Proof.
  unfold Boards.validate_ban_color. case_bool_decide as Hin; [done|].
  by intros [= <-].
Qed.

Lemma validate_ban_color_accepts self key c :
  c ∈ Colors.value <$> Colors.members →
  Boards.validate_ban_color self key c = Return c.
Proof.
  intros Hin. unfold Boards.validate_ban_color.
  by rewrite bool_decide_eq_false_2 by (intros H; exact (H Hin)).
Qed.

(** * [BoardService] *)

Module BoardFacts.
Import BoardService.

Lemma board_bind {A C} (m : B A) (k : A → B C) tbl :
  (m ≫= k) tbl = match m tbl with
                 | (Return a, tbl') => k a tbl'
                 | (Raise e, tbl') => (Raise e, tbl')
                 end.
Proof. reflexivity. Qed.

Lemma board_bind_Return {A C} (m : B A) (k : A → B C) tbl a tbl' :
  m tbl = (Return a, tbl') → (m ≫= k) tbl = k a tbl'.
Proof. intros H. by rewrite board_bind, H. Qed.

Lemma run_call check tbl :
  check tbl = Return tt → call check tbl = (Return tt, tbl).
Proof. intros H. unfold call. by rewrite H. Qed.

Lemma run_one tbl board_id b :
  tbl !! board_id = Some b → one board_id tbl = (Return b, tbl).
Proof. intros H. unfold one. by rewrite H. Qed.

(** X23. With a free key from the database and utilities that accept the
    arguments, [create_board] builds the row with the match id, the ban
    colour and [next_player_turn] that were given (an empty string and 0
    counting as not given) and with [current_player_turn] NULL whatever
    [current_player] was, which only lands on the returned object.  When
    the integers of the row fit the 64 bits of SQLite the row is inserted,
    the others are left and [get_board_by_id] reads the row back; when one
    does not, the call raises [OverflowError] and the table is as it
    was. *)
Theorem create_board_stores U tbl match_id ban_color current_player
    next_player_turn :
  tbl !! Utils.next_rowid U tbl = None →
  (∀ c, nonempty ban_color = Some c →
        Utils.validate_color U c tbl = Return tt
        ∧ c ∈ Colors.value <$> Colors.members) →
  (is_Some (nonzero current_player) ∨ is_Some (nonzero next_player_turn) →
   Utils.validate_turn U current_player next_player_turn None tbl
   = Return tt) →
  let i := Utils.next_rowid U tbl in
  let row := Boards.mk (nonempty ban_color) match_id None
                       (nonzero next_player_turn) in
  create_board U match_id ban_color current_player next_player_turn tbl
  = (if storable row
     then (Return (mkBoardObject (Some i) row (nonzero current_player)),
           <[i := row]> tbl)
     else (Raise OverflowError, tbl))
  ∧ (∀ j b, tbl !! j = Some b → <[i := row]> tbl !! j = Some b)
  ∧ (Utils.validate_board U i (<[i := row]> tbl) = Return tt →
     get_board_by_id U i (<[i := row]> tbl)
     = (Return row, <[i := row]> tbl)).
Proof.
  intros Hfresh Hcol Hturn i row. split_and!.
  - unfold create_board.
    erewrite (board_bind_Return _ _ tbl
                (mkBoardObject None
                   (Boards.mk (nonempty ban_color) match_id None None) None)).
    2:{ destruct (nonempty ban_color) as [c|] eqn:Hc; [|reflexivity].
        destruct (Hcol c eq_refl) as [Hu Hin].
        erewrite board_bind_Return by (by apply run_call).
        unfold lift. rewrite board_bind.
        by rewrite validate_ban_color_accepts. }
    erewrite (board_bind_Return _ _ tbl
                (mkBoardObject None
                   (Boards.mk (nonempty ban_color) match_id None None)
                   (nonzero current_player))).
    2:{ destruct (nonzero current_player) as [cp|] eqn:Hcp; [|reflexivity].
        erewrite board_bind_Return; [reflexivity|].
        apply run_call, Hturn. left. eauto. }
    erewrite (board_bind_Return _ _ tbl
                (mkBoardObject None row (nonzero current_player))).
    2:{ unfold row. destruct (nonzero next_player_turn) as [np|] eqn:Hnp;
          [|reflexivity].
        erewrite board_bind_Return; [reflexivity|].
        apply run_call, Hturn. right. eauto. }
    reflexivity.
  - intros j b Hj. rewrite lookup_insert_ne; [done|].
    intros <-. fold i in Hfresh. congruence.
  - intros Hv. unfold get_board_by_id.
    erewrite board_bind_Return by (apply run_one, lookup_insert_eq).
    erewrite board_bind_Return by (by apply run_call). reflexivity.
Qed.

Lemma create_board_stores_witness :
  create_board lenient 7 (Some "blue") (Some 1) (Some 0) two_boards
  = (if storable (Boards.mk (Some "blue") 7 None None)
     then (Return (mkBoardObject (Some 3)
                     (Boards.mk (Some "blue") 7 None None) (Some 1)),
           <[3 := Boards.mk (Some "blue") 7 None None]> two_boards)
     else (Raise OverflowError, two_boards))
  ∧ (∀ j b, two_boards !! j = Some b →
            <[3 := Boards.mk (Some "blue") 7 None None]> two_boards !! j
            = Some b)
  ∧ (Return tt = Return tt →
     get_board_by_id lenient 3
       (<[3 := Boards.mk (Some "blue") 7 None None]> two_boards)
     = (Return (Boards.mk (Some "blue") 7 None None),
        <[3 := Boards.mk (Some "blue") 7 None None]> two_boards)).
Proof.
  apply (create_board_stores lenient two_boards 7 (Some "blue") (Some 1)
           (Some 0)).
  - reflexivity.
  - intros c [= <-]. split; [reflexivity|]. simpl. set_solver.
  - reflexivity.
Defined.

(** A board for the match [2 ^ 63], one more than SQLite can hold, is
    refused with the table as it was; the largest id that fits goes in. *)
Example create_board_overflow :
  create_board lenient (2 ^ 63) None None None two_boards
  = (Raise OverflowError, two_boards)
  ∧ create_board lenient (2 ^ 63 - 1) None None None two_boards
    = (Return (mkBoardObject (Some 3) (Boards.mk None (2 ^ 63 - 1) None None)
                 None),
       <[3 := Boards.mk None (2 ^ 63 - 1) None None]> two_boards).
Proof. split; vm_compute; reflexivity. Qed.


Example get_all_boards_two_boards :
  get_all_boards two_boards
  = (Return [(1, Boards.mk (Some "red") 7 None (Some 2));
             (2, Boards.mk None 8 None None)], two_boards).
Proof. vm_compute. reflexivity. Qed.

Lemma update_ban_color_cases U tbl board_id c :
  match update_ban_color U board_id c tbl with
  | (Return _, tbl') =>
      c ∈ Colors.value <$> Colors.members
      ∧ ∃ b, tbl !! board_id = Some b
             ∧ tbl' = <[board_id := Boards.mk (Some c) (Boards.match_id b)
                                      (Boards.current_player_turn b)
                                      (Boards.next_player_turn b)]> tbl
  | (Raise _, tbl') => tbl' = tbl
  end.
Proof.
  unfold update_ban_color. rewrite board_bind. unfold call at 1.
  destruct (Utils.validate_color U c tbl) as [e|[]]; [reflexivity|].
  rewrite board_bind. unfold one at 1.
  destruct (tbl !! board_id) as [b|] eqn:Hb; [|reflexivity].
  rewrite board_bind. unfold lift at 1.
  destruct (Boards.validate_ban_color b "ban_color" c) as [e|c'] eqn:Hc;
    [reflexivity|].
  apply validate_ban_color_Return in Hc as [-> Hin].
  split; [exact Hin|]. by exists b.
Qed.

(** X24. [update_ban_color] either returns, and then the colour is one of
    the four values of [Colors], the board existed, and its row differs
    from the old one in [ban_color] alone; or it raises, and then the table
    is as it was.  This holds whatever the utility [validate_color] lets
    through: the validator of the model has the last word. *)
Theorem update_ban_color_outcome U tbl board_id c :
  match update_ban_color U board_id c tbl with
  | (Return _, tbl') =>
      c ∈ Colors.value <$> Colors.members
      ∧ ∃ b, tbl !! board_id = Some b
             ∧ tbl' = <[board_id := Boards.mk (Some c) (Boards.match_id b)
                                      (Boards.current_player_turn b)
                                      (Boards.next_player_turn b)]> tbl
  | (Raise _, tbl') => tbl' = tbl
  end.
Proof. apply update_ban_color_cases. Qed.

(** X25. [delete_board] on an existing board that [validate_board] accepts
    removes that row and no other, after which [get_board_by_id] fails with
    [NoResultFound]; on an id without a row it fails with [NoResultFound]
    itself and changes nothing. *)
Theorem delete_board_then_get U tbl board_id b :
  tbl !! board_id = Some b →
  Utils.validate_board U board_id tbl = Return tt →
  delete_board U board_id tbl = (Return tt, delete board_id tbl)
  ∧ get_board_by_id U board_id (delete board_id tbl)
    = (Raise NoResultFound, delete board_id tbl)
  ∧ delete_board U board_id (delete board_id tbl)
    = (Raise NoResultFound, delete board_id tbl)
  ∧ ∀ j, j ≠ board_id → delete board_id tbl !! j = tbl !! j.
Proof.
  intros Hb Hv. split_and!.
  - unfold delete_board.
    erewrite board_bind_Return by (by apply run_one).
    erewrite board_bind_Return by (by apply run_call). reflexivity.
  - unfold get_board_by_id. rewrite board_bind. unfold one.
    by rewrite lookup_delete_eq.
  - unfold delete_board. rewrite board_bind. unfold one.
    by rewrite lookup_delete_eq.
  - intros j Hj. by rewrite lookup_delete_ne.
Qed.

Lemma delete_board_then_get_witness :
  delete_board lenient 1 two_boards = (Return tt, delete 1 two_boards)
  ∧ get_board_by_id lenient 1 (delete 1 two_boards)
    = (Raise NoResultFound, delete 1 two_boards)
  ∧ delete_board lenient 1 (delete 1 two_boards)
    = (Raise NoResultFound, delete 1 two_boards)
  ∧ ∀ j, j ≠ 1 → delete 1 two_boards !! j = two_boards !! j.
Proof.
  apply (delete_board_then_get lenient two_boards 1
           (Boards.mk (Some "red") 7 None (Some 2))); reflexivity.
Defined.

Lemma run_update_turn_board U tbl board_id current_player
    next_player_turn :
  update_turn U board_id current_player next_player_turn tbl
  = (match Utils.validate_turn U (Some current_player)
             (Some next_player_turn) (Some board_id) tbl with
     | Raise e => Raise e
     | Return _ =>
         if tbl !! board_id is Some _ then Return tt else Raise NoResultFound
     end, tbl).
Proof.
  unfold update_turn. rewrite board_bind. unfold call at 1.
  destruct (Utils.validate_turn U _ _ _ tbl) as [e|[]]; [reflexivity|].
  rewrite board_bind. unfold one at 1.
  destruct (tbl !! board_id) as [b|] eqn:Hb; [|reflexivity].
  unfold flush, with_current_player; simpl. by rewrite insert_id.
Qed.


Section Invariant.
Context (P : Boards.t → Prop).
Hypothesis P_new :
  ∀ ban match_id next,
    (∀ c, ban = Some c → c ∈ Colors.value <$> Colors.members) →
    P (Boards.mk ban match_id None next).
Hypothesis P_recolour :
  ∀ b c, P b → c ∈ Colors.value <$> Colors.members →
         P (Boards.mk (Some c) (Boards.match_id b)
              (Boards.current_player_turn b) (Boards.next_player_turn b)).

Lemma all_boards_insert i b tbl :
  all_boards P tbl → P b → all_boards P (<[i := b]> tbl).
Proof.
  intros Hall Hb j b' Hj. destruct (decide (i = j)) as [->|Hne].
  - rewrite lookup_insert_eq in Hj. by injection Hj as <-.
  - rewrite lookup_insert_ne in Hj by done. by eapply Hall.
Qed.

Lemma all_boards_add U o tbl :
  all_boards P tbl → P (obj_row o) → all_boards P (add U o tbl).2.
Proof.
  intros Hall Ho. unfold add. destruct (storable (obj_row o)); simpl.
  - by apply all_boards_insert.
  - exact Hall.
Qed.

Lemma all_boards_create U tbl match_id ban cp np :
  all_boards P tbl →
  all_boards P (create_board U match_id ban cp np tbl).2.
Proof.
  intros Hall. unfold create_board. rewrite board_bind.
  destruct (nonempty ban) as [c|].
  - rewrite board_bind. unfold call at 1.
    destruct (Utils.validate_color U c tbl) as [e|[]]; [exact Hall|].
    rewrite board_bind. unfold lift at 1.
    destruct (Boards.validate_ban_color _ "ban_color" c) as [e|c'] eqn:Hc;
      [exact Hall|].
    apply validate_ban_color_Return in Hc as [-> Hin].
    cbn [mret B_ret]. rewrite board_bind.
    destruct (nonzero cp) as [cp'|];
      [rewrite board_bind; unfold call at 1;
       destruct (Utils.validate_turn U cp np _ tbl) as [e|[]];
       [exact Hall|]|];
      cbn [mret B_ret]; rewrite board_bind;
      (destruct (nonzero np) as [np'|];
       [rewrite board_bind; unfold call at 1;
        destruct (Utils.validate_turn U cp np _ tbl) as [e|[]];
        [exact Hall|]|]);
      cbn [mret B_ret]; apply all_boards_add; try done; apply P_new;
      by intros ? [= <-].
  - cbn [mret B_ret]. rewrite board_bind.
    destruct (nonzero cp) as [cp'|];
      [rewrite board_bind; unfold call at 1;
       destruct (Utils.validate_turn U cp np _ tbl) as [e|[]];
       [exact Hall|]|];
      cbn [mret B_ret]; rewrite board_bind;
      (destruct (nonzero np) as [np'|];
       [rewrite board_bind; unfold call at 1;
        destruct (Utils.validate_turn U cp np _ tbl) as [e|[]];
        [exact Hall|]|]);
      cbn [mret B_ret]; apply all_boards_add; try done; apply P_new;
      by intros ? [=].
Qed.

Lemma all_boards_update_ban_color U tbl board_id c :
  all_boards P tbl → all_boards P (update_ban_color U board_id c tbl).2.
Proof.
  intros Hall. pose proof (update_ban_color_cases U tbl board_id c) as H.
  destruct (update_ban_color U board_id c tbl) as [[e|[]] tbl']; simpl.
  - by subst tbl'.
  - destruct H as (Hin & b & Hb & ->).
    apply all_boards_insert; [done|]. apply P_recolour; [|done].
    by eapply Hall.
Qed.

Lemma all_boards_delete_board U tbl board_id :
  all_boards P tbl → all_boards P (delete_board U board_id tbl).2.
Proof.
  intros Hall. unfold delete_board. rewrite board_bind. unfold one at 1.
  destruct (tbl !! board_id) as [b|]; [|exact Hall].
  rewrite board_bind. unfold call at 1.
  destruct (Utils.validate_board U board_id tbl) as [e|[]]; [exact Hall|].
  simpl. intros j b' Hj. destruct (decide (board_id = j)) as [->|Hne].
  - by rewrite lookup_delete_eq in Hj.
  - rewrite lookup_delete_ne in Hj by done. by eapply Hall.
Qed.

Lemma all_boards_update_turn U tbl board_id cp np :
  all_boards P tbl → all_boards P (update_turn U board_id cp np tbl).2.
Proof. intros Hall. by rewrite run_update_turn_board. Qed.
End Invariant.

Lemma all_boards_two_boards (P : Boards.t → Prop) :
  P (Boards.mk (Some "red") 7 None (Some 2)) →
  P (Boards.mk None 8 None None) →
  all_boards P two_boards.
Proof.
  intros H1 H2 i b Hi. unfold two_boards in Hi.
  apply lookup_insert_Some in Hi as [[_ <-]|[_ Hi]]; [exact H1|].
  apply lookup_singleton_Some in Hi as [_ <-]. exact H2.
Qed.

(** X27. When every ban colour in the table is a value of [Colors], it is
    still so after any call of [create_board], [update_ban_color],
    [delete_board] or [update_turn], with any arguments and any utilities,
    whether the call returns or raises. *)
Theorem board_service_keeps_ban_colors_valid U tbl :
  all_boards ban_color_valid tbl →
  (∀ match_id ban cp np,
     all_boards ban_color_valid (create_board U match_id ban cp np tbl).2)
  ∧ (∀ board_id c,
       all_boards ban_color_valid (update_ban_color U board_id c tbl).2)
  ∧ (∀ board_id, all_boards ban_color_valid (delete_board U board_id tbl).2)
  ∧ (∀ board_id cp np,
       all_boards ban_color_valid (update_turn U board_id cp np tbl).2).
Proof.
  intros Hall.
  assert (∀ ban match_id next,
            (∀ c, ban = Some c → c ∈ Colors.value <$> Colors.members) →
            ban_color_valid (Boards.mk ban match_id None next)) as Hnew.
  { intros ban match_id next Hban c Hc. by apply Hban. }
  assert (∀ b c, ban_color_valid b →
                 c ∈ Colors.value <$> Colors.members →
                 ban_color_valid
                   (Boards.mk (Some c) (Boards.match_id b)
                      (Boards.current_player_turn b)
                      (Boards.next_player_turn b))) as Hre.
  { intros b c _ Hc c' [= <-]. exact Hc. }
  split_and!; intros.
  - by apply all_boards_create.
  - by apply all_boards_update_ban_color.
  - by apply all_boards_delete_board.
  - by apply all_boards_update_turn.
Qed.

Lemma board_service_keeps_ban_colors_valid_witness :
  (∀ match_id ban cp np,
     all_boards ban_color_valid
       (create_board lenient match_id ban cp np two_boards).2)
  ∧ (∀ board_id c,
       all_boards ban_color_valid
         (update_ban_color lenient board_id c two_boards).2)
  ∧ (∀ board_id,
       all_boards ban_color_valid (delete_board lenient board_id two_boards).2)
  ∧ (∀ board_id cp np,
       all_boards ban_color_valid
         (update_turn lenient board_id cp np two_boards).2).
Proof.
  apply (board_service_keeps_ban_colors_valid lenient two_boards).
  apply all_boards_two_boards.
  - intros c [= <-]. simpl. set_solver.
  - intros c [=].
Defined.

(** X28. No call of the service writes [current_player_turn]: when the
    column is NULL on every board it is still NULL on every board after
    any call of [create_board], [update_ban_color], [delete_board] or
    [update_turn], with any arguments and any utilities. *)
Theorem board_service_never_sets_current_player_turn U tbl :
  all_boards (λ b, Boards.current_player_turn b = None) tbl →
  (∀ match_id ban cp np,
     all_boards (λ b, Boards.current_player_turn b = None)
       (create_board U match_id ban cp np tbl).2)
  ∧ (∀ board_id c,
       all_boards (λ b, Boards.current_player_turn b = None)
         (update_ban_color U board_id c tbl).2)
  ∧ (∀ board_id,
       all_boards (λ b, Boards.current_player_turn b = None)
         (delete_board U board_id tbl).2)
  ∧ (∀ board_id cp np,
       all_boards (λ b, Boards.current_player_turn b = None)
         (update_turn U board_id cp np tbl).2).
Proof.
  intros Hall.
  split_and!; intros.
  - by apply all_boards_create.
  - by apply all_boards_update_ban_color.
  - by apply all_boards_delete_board.
  - by apply all_boards_update_turn.
Qed.

Lemma board_service_never_sets_current_player_turn_witness :
  (∀ match_id ban cp np,
     all_boards (λ b, Boards.current_player_turn b = None)
       (create_board lenient match_id ban cp np two_boards).2)
  ∧ (∀ board_id c,
       all_boards (λ b, Boards.current_player_turn b = None)
         (update_ban_color lenient board_id c two_boards).2)
  ∧ (∀ board_id,
       all_boards (λ b, Boards.current_player_turn b = None)
         (delete_board lenient board_id two_boards).2)
  ∧ (∀ board_id cp np,
       all_boards (λ b, Boards.current_player_turn b = None)
         (update_turn lenient board_id cp np two_boards).2).
Proof.
  apply (board_service_never_sets_current_player_turn lenient two_boards).
  by apply all_boards_two_boards.
Defined.

End BoardFacts.
